(** * Super Mario SFML: a shallow embedding of [supermario.cpp]

    The game logic of [supermario.cpp] (player physics, enemy patrol,
    stomp/damage classification, coin pickup, the Playing/GameOver state
    machine and the level reset) is transcribed function by function.

    Numbers.  The C++ [float] fields are modelled by exact rationals [Q]:
    every comparison and every branch of the source is kept, rounding is
    not.  Equalities that go through an arithmetic operation are therefore
    stated with [==] ([Qeq]); a value that the code stores as it is
    (a constant, a copied field) is compared with [=].  [int] counters
    ([score], [lives]) are integers [Z]; signed overflow is undefined
    behaviour in C++ and is not modelled.

    SFML.  [sf::RectangleShape] is used by the game with its default
    origin, rotation, scale and outline, so that its global bounds are the
    rectangle at [getPosition()] of size [getSize()].  Textures, fonts,
    sprites' colours and the coin animation clock only feed the renderer and
    are left out. *)

From Stdlib Require Import QArith Qround ZArith List Bool Lia Lqa.
Import ListNotations.

Open Scope Q_scope.

(** ** Comparisons on [float] values *)

Definition Qltb (a b : Q) : bool := negb (Qle_bool b a).

Definition Qleb (a b : Q) : bool := Qle_bool a b.

(** ** Global constants *)

Definition GRAVITY : Q := 900.
Definition PLAYER_JUMP_VELOCITY : Q := -500.
Definition PLAYER_MOVE_SPEED : Q := 200.
Definition ENEMY_MOVE_SPEED : Q := 80.
Definition COLLISION_EPSILON : Q := 1 # 10.

Inductive GameState : Type := Playing | GameOver.

(** ** The part of SFML the game uses *)

Record Vector2f : Type := V2 { x : Q; y : Q }.

Record FloatRect : Type := Rect { position : Vector2f; size : Vector2f }.

Record RectangleShape : Type :=
  Shape { getPosition : Vector2f; getSize : Vector2f }.

Definition getGlobalBounds (s : RectangleShape) : FloatRect :=
  Rect (getPosition s) (getSize s).

Definition setPosition (v : Vector2f) (s : RectangleShape) : RectangleShape :=
  Shape v (getSize s).

Definition move (offset : Vector2f) (s : RectangleShape) : RectangleShape :=
  Shape (V2 (x (getPosition s) + x offset) (y (getPosition s) + y offset))
        (getSize s).

Definition fmin (a b : Q) : Q := if Qltb a b then a else b.
Definition fmax (a b : Q) : Q := if Qltb a b then b else a.

(** [sf::Rect<float>::findIntersection], reduced to [has_value()]: the
    rectangles intersect when the intersection has a positive area;
    rectangles of negative size are normalised first, as SFML does. *)
Definition findIntersection_has_value (r1 r2 : FloatRect) : bool :=
  let r1MinX := fmin (x (position r1)) (x (position r1) + x (size r1)) in
  let r1MaxX := fmax (x (position r1)) (x (position r1) + x (size r1)) in
  let r1MinY := fmin (y (position r1)) (y (position r1) + y (size r1)) in
  let r1MaxY := fmax (y (position r1)) (y (position r1) + y (size r1)) in
  let r2MinX := fmin (x (position r2)) (x (position r2) + x (size r2)) in
  let r2MaxX := fmax (x (position r2)) (x (position r2) + x (size r2)) in
  let r2MinY := fmin (y (position r2)) (y (position r2) + y (size r2)) in
  let r2MaxY := fmax (y (position r2)) (y (position r2) + y (size r2)) in
  let interLeft := fmax r1MinX r2MinX in
  let interTop := fmax r1MinY r2MinY in
  let interRight := fmin r1MaxX r2MaxX in
  let interBottom := fmin r1MaxY r2MaxY in
  Qltb interLeft interRight && Qltb interTop interBottom.

Definition checkCollision (rect1 rect2 : FloatRect) : bool :=
  findIntersection_has_value rect1 rect2.

(** Edges of a shape, as the source computes them from its bounds. *)
Definition topEdge (s : RectangleShape) : Q := y (position (getGlobalBounds s)).

Definition bottomEdge (s : RectangleShape) : Q :=
  y (position (getGlobalBounds s)) + y (size (getGlobalBounds s)).

(** Keyboard state, as [sf::Keyboard::isKeyPressed] reports it. *)
Inductive Key : Type := KeyLeft | KeyRight | KeySpace | KeyR | KeyOther.

Definition Key_eqb (a b : Key) : bool :=
  match a, b with
  | KeyLeft, KeyLeft | KeyRight, KeyRight | KeySpace, KeySpace
  | KeyR, KeyR | KeyOther, KeyOther => true
  | _, _ => false
  end.

Definition Keyboard : Type := Key -> bool.

(** Window events, as [window.pollEvent()] delivers them. *)
Inductive Event : Type :=
| Closed
| Resized (width height : Z)
| KeyPressed (code : Key)
| OtherEvent.

(** ** Player *)

Module Player.

Record t : Type := Make {
  sprite : RectangleShape;
  velocity : Vector2f;
  onGround : bool
}.

Definition set_sprite (s : RectangleShape) (p : t) : t :=
  Make s (velocity p) (onGround p).

Definition set_vx (v : Q) (p : t) : t :=
  Make (sprite p) (V2 v (y (velocity p))) (onGround p).

Definition set_vy (v : Q) (p : t) : t :=
  Make (sprite p) (V2 (x (velocity p)) v) (onGround p).

Definition set_onGround (b : bool) (p : t) : t :=
  Make (sprite p) (velocity p) b.

(** [Player::Player(startX, startY)] *)
Definition new (startX startY : Q) : t :=
  Make (Shape (V2 startX startY) (V2 40 60)) (V2 0 0) false.

(** Body of the first [for] loop of [Player::update]. *)
Definition resolveHorizontal (p : t) (platform : RectangleShape) : t :=
  if checkCollision (getGlobalBounds (sprite p)) (getGlobalBounds platform)
  then
    let p1 :=
      if Qltb 0 (x (velocity p)) then
        set_sprite
          (setPosition
             (V2 (x (position (getGlobalBounds platform))
                  - x (size (getGlobalBounds (sprite p)))
                  - COLLISION_EPSILON)
                 (y (getPosition (sprite p))))
             (sprite p)) p
      else if Qltb (x (velocity p)) 0 then
        set_sprite
          (setPosition
             (V2 (x (position (getGlobalBounds platform))
                  + x (size (getGlobalBounds platform))
                  + COLLISION_EPSILON)
                 (y (getPosition (sprite p))))
             (sprite p)) p
      else p in
    set_vx 0 p1
  else p.

(** Body of the second [for] loop of [Player::update]. *)
Definition resolveVertical (p : t) (platform : RectangleShape) : t :=
  if checkCollision (getGlobalBounds (sprite p)) (getGlobalBounds platform)
  then
    if Qltb 0 (y (velocity p)) then
      let p1 :=
        set_sprite
          (setPosition
             (V2 (x (getPosition (sprite p)))
                 (y (position (getGlobalBounds platform))
                  - y (size (getGlobalBounds (sprite p)))))
             (sprite p)) p in
      set_onGround true (set_vy 0 p1)
    else if Qltb (y (velocity p)) 0 then
      let p1 :=
        set_sprite
          (setPosition
             (V2 (x (getPosition (sprite p)))
                 (y (position (getGlobalBounds platform))
                  + y (size (getGlobalBounds platform))
                  + COLLISION_EPSILON))
             (sprite p)) p in
      set_vy 0 p1
    else p
  else p.

(** The steps of [Player::update], in source order. *)

Definition applyGravity (deltaTime : Q) (p : t) : t :=
  set_vy (y (velocity p) + GRAVITY * deltaTime) p.

Definition moveHorizontally (deltaTime : Q) (p : t) : t :=
  set_sprite (move (V2 (x (velocity p) * deltaTime) 0) (sprite p)) p.

Definition moveVertically (deltaTime : Q) (p : t) : t :=
  set_onGround false
    (set_sprite (move (V2 0 (y (velocity p) * deltaTime)) (sprite p)) p).

Definition clampLeft (p : t) : t :=
  if Qltb (x (getPosition (sprite p))) 0 then
    set_vx 0
      (set_sprite (setPosition (V2 0 (y (getPosition (sprite p)))) (sprite p)) p)
  else p.

Definition clampRight (p : t) : t :=
  if Qltb 800 (x (getPosition (sprite p)) + x (size (getGlobalBounds (sprite p))))
  then
    set_vx 0
      (set_sprite
         (setPosition
            (V2 (800 - x (size (getGlobalBounds (sprite p))))
                (y (getPosition (sprite p))))
            (sprite p)) p)
  else p.

(** Lines 97-117: the vertical move and the vertical resolution loop. *)
Definition verticalStep (deltaTime : Q) (platforms : list RectangleShape)
    (p : t) : t :=
  fold_left resolveVertical platforms (moveVertically deltaTime p).

(** [Player::update(deltaTime, platforms)] *)
Definition update (deltaTime : Q) (platforms : list RectangleShape)
    (p : t) : t :=
  let p := applyGravity deltaTime p in
  let p := moveHorizontally deltaTime p in
  let p := fold_left resolveHorizontal platforms p in
  let p := verticalStep deltaTime platforms p in
  let p := clampLeft p in
  clampRight p.

(** [Player::handleInput()] *)
Definition handleInput (isKeyPressed : Keyboard) (p : t) : t :=
  let p := set_vx 0 p in
  let p := if isKeyPressed KeyLeft then set_vx (- PLAYER_MOVE_SPEED) p else p in
  let p := if isKeyPressed KeyRight then set_vx PLAYER_MOVE_SPEED p else p in
  if isKeyPressed KeySpace && onGround p then
    set_onGround false (set_vy PLAYER_JUMP_VELOCITY p)
  else p.

End Player.

(** ** Enemy *)

Module Enemy.

Record t : Type := Make {
  sprite : RectangleShape;
  velocity : Vector2f;
  leftBound : Q;
  rightBound : Q
}.

Definition set_sprite (s : RectangleShape) (e : t) : t :=
  Make s (velocity e) (leftBound e) (rightBound e).

Definition set_vx (v : Q) (e : t) : t :=
  Make (sprite e) (V2 v (y (velocity e))) (leftBound e) (rightBound e).

(** [std::min] and [std::max] on [float]. *)
Definition std_min (a b : Q) : Q := if Qltb b a then b else a.
Definition std_max (a b : Q) : Q := if Qltb a b then b else a.

(** [Enemy::Enemy(startX, startY, bound1, bound2)] *)
Definition new (startX startY bound1 bound2 : Q) : t :=
  Make (Shape (V2 startX startY) (V2 40 40)) (V2 ENEMY_MOVE_SPEED 0)
       (std_min bound1 bound2) (std_max bound1 bound2).

(** The test of the [if] of [Enemy::update], on the moved sprite. *)
Definition hitsBound (e : t) : bool :=
  Qleb (x (getPosition (sprite e))) (leftBound e)
  || Qleb (rightBound e)
          (x (getPosition (sprite e)) + x (size (getGlobalBounds (sprite e)))).

(** [Enemy::update(deltaTime)] *)
Definition update (deltaTime : Q) (e : t) : t :=
  let e := set_sprite (move (V2 (x (velocity e) * deltaTime) 0) (sprite e)) e in
  if hitsBound e then
    let e1 := set_vx (x (velocity e) * -1) e in
    if Qleb (x (getPosition (sprite e1))) (leftBound e1) then
      set_sprite
        (setPosition (V2 (leftBound e1) (y (getPosition (sprite e1))))
                     (sprite e1)) e1
    else
      set_sprite
        (setPosition
           (V2 (rightBound e1 - x (size (getGlobalBounds (sprite e1))))
               (y (getPosition (sprite e1))))
           (sprite e1)) e1
  else e.

End Enemy.

(** ** Coin *)

Module Coin.

Record t : Type := Make {
  sprite : RectangleShape;
  collected : bool
}.

(** [Coin::Coin(x, y)] *)
Definition new (x0 y0 : Q) : t := Make (Shape (V2 x0 y0) (V2 30 30)) false.

(** [Coin::update(deltaTime)] only advances the animation frame shown by
    the renderer; the fields modelled here are left as they are. *)
Definition update (deltaTime : Q) (c : t) : t := c.

Definition set_collected (b : bool) (c : t) : t := Make (sprite c) b.


End Coin.

(** ** Game *)

Module Game.

(** [sf::View]: the camera. *)
Record View : Type := MakeView { center : Vector2f; viewSize : Vector2f }.

Record t : Type := Make {
  windowOpen : bool;            (* window.isOpen() *)
  windowSize : Z * Z;           (* window.getSize() *)
  view : View;
  currentState : GameState;
  player : Player.t;
  platforms : list RectangleShape;
  enemies : list Enemy.t;
  coins : list Coin.t;
  score : Z;
  lives : Z
}.

Definition set_windowOpen (b : bool) (g : t) : t :=
  Make b (windowSize g) (view g) (currentState g) (player g) (platforms g)
       (enemies g) (coins g) (score g) (lives g).

Definition set_windowSize (s : Z * Z) (g : t) : t :=
  Make (windowOpen g) s (view g) (currentState g) (player g) (platforms g)
       (enemies g) (coins g) (score g) (lives g).

Definition set_view (v : View) (g : t) : t :=
  Make (windowOpen g) (windowSize g) v (currentState g) (player g)
       (platforms g) (enemies g) (coins g) (score g) (lives g).

Definition set_currentState (s : GameState) (g : t) : t :=
  Make (windowOpen g) (windowSize g) (view g) s (player g) (platforms g)
       (enemies g) (coins g) (score g) (lives g).

Definition set_player (p : Player.t) (g : t) : t :=
  Make (windowOpen g) (windowSize g) (view g) (currentState g) p
       (platforms g) (enemies g) (coins g) (score g) (lives g).

Definition set_platforms (l : list RectangleShape) (g : t) : t :=
  Make (windowOpen g) (windowSize g) (view g) (currentState g) (player g) l
       (enemies g) (coins g) (score g) (lives g).

Definition set_enemies (l : list Enemy.t) (g : t) : t :=
  Make (windowOpen g) (windowSize g) (view g) (currentState g) (player g)
       (platforms g) l (coins g) (score g) (lives g).

Definition set_coins (l : list Coin.t) (g : t) : t :=
  Make (windowOpen g) (windowSize g) (view g) (currentState g) (player g)
       (platforms g) (enemies g) l (score g) (lives g).

Definition set_score (n : Z) (g : t) : t :=
  Make (windowOpen g) (windowSize g) (view g) (currentState g) (player g)
       (platforms g) (enemies g) (coins g) n (lives g).

Definition set_lives (n : Z) (g : t) : t :=
  Make (windowOpen g) (windowSize g) (view g) (currentState g) (player g)
       (platforms g) (enemies g) (coins g) (score g) n.

(** The level built by [initLevel]. *)

Definition levelPlatforms : list RectangleShape :=
  [ Shape (V2 0 500) (V2 2000 50);      (* ground *)
    Shape (V2 250 400) (V2 200 30);     (* platform1 *)
    Shape (V2 500 300) (V2 150 30);     (* platform2 *)
    Shape (V2 800 450) (V2 300 30);     (* platform3 *)
    Shape (V2 1100 350) (V2 100 30) ].  (* platform4 *)

Definition levelEnemies : list Enemy.t :=
  [ Enemy.new 300 460 250 450;
    Enemy.new 600 260 550 700;
    Enemy.new 900 410 850 1000 ].

Definition levelCoins : list Coin.t :=
  [ Coin.new 270 360;
    Coin.new 550 260;
    Coin.new 600 260;
    Coin.new 850 410;
    Coin.new 1120 310 ].

(** The two statements that put the player back at the start position. *)
Definition respawn (p : Player.t) : Player.t :=
  Player.Make (setPosition (V2 100 400) (Player.sprite p)) (V2 0 0)
              (Player.onGround p).

(** [Game::initLevel()] *)
Definition initLevel (g : t) : t :=
  let g := set_platforms [] g in
  let g := set_enemies [] g in
  let g := set_coins [] g in
  let g := set_score 0 g in
  let g := set_lives 3 g in
  let g := set_platforms (platforms g ++ levelPlatforms) g in
  let g := set_enemies (enemies g ++ levelEnemies) g in
  let g := set_coins (coins g ++ levelCoins) g in
  let g := set_player (Player.set_onGround false (respawn (player g))) g in
  set_currentState Playing g.

(** [Game::Game()]: an 800x600 window, the camera on its centre, then
    [initLevel]. *)
Definition new : t :=
  initLevel
    (Make true (800, 600)%Z (MakeView (V2 (800 / 2) (600 / 2)) (V2 800 600))
          Playing (Player.new 100 400) [] [] [] 0 3).

(** Body of the event loop of [Game::handleEvents], for one event. *)
Definition handleEvent (g : t) (event : Event) : t :=
  let g := match event with
           | Closed => set_windowOpen false g
           | _ => g
           end in
  let g := match event with
           | Resized w h =>
               let newSize := V2 (inject_Z w) (inject_Z h) in
               set_view (MakeView (V2 (x newSize / 2) (y newSize / 2)) newSize)
                        (set_windowSize (w, h) g)
           | _ => g
           end in
  match currentState g, event with
  | GameOver, KeyPressed code => if Key_eqb code KeyR then initLevel g else g
  | _, _ => g
  end.

(** [window.pollEvent()] delivers the queued events while the window is
    open; a closed window delivers none. *)
Fixpoint pollEvents (g : t) (queue : list Event) : t :=
  match queue with
  | [] => g
  | event :: rest =>
      if windowOpen g then pollEvents (handleEvent g event) rest else g
  end.

(** [Game::handleEvents()] *)
Definition handleEvents (queue : list Event) (isKeyPressed : Keyboard)
    (g : t) : t :=
  let g := pollEvents g queue in
  match currentState g with
  | Playing => set_player (Player.handleInput isKeyPressed (player g)) g
  | GameOver => g
  end.

(** The stomp test of [Game::update]. *)
Definition isStomp (p : Player.t) (e : Enemy.t) : bool :=
  Qltb 0 (y (Player.velocity p))
  && Qltb (y (position (getGlobalBounds (Player.sprite p)))
           + y (size (getGlobalBounds (Player.sprite p))))
          (y (position (getGlobalBounds (Enemy.sprite e))) + 20).

(** The player-enemy interaction of [Game::update], once the bounds are
    known to overlap. *)
Definition interact (g : t) (enemy : Enemy.t) : t * Enemy.t :=
  if isStomp (player g) enemy then
    let enemy := Enemy.set_sprite
                   (setPosition (V2 (-1000) (-1000)) (Enemy.sprite enemy))
                   enemy in
    let g := set_player (Player.set_vy (PLAYER_JUMP_VELOCITY / 2) (player g)) g in
    (set_score (score g + 100) g, enemy)
  else
    let g := set_lives (lives g - 1) g in
    let g := set_player (respawn (player g)) g in
    ((if (lives g <=? 0)%Z then set_currentState GameOver g else g), enemy).

(** Body of the enemy loop of [Game::update]. *)
Definition enemyStep (deltaTime : Q) (g : t) (enemy : Enemy.t) : t * Enemy.t :=
  let enemy := Enemy.update deltaTime enemy in
  if checkCollision (getGlobalBounds (Player.sprite (player g)))
                    (getGlobalBounds (Enemy.sprite enemy))
  then interact g enemy
  else (g, enemy).

(** The enemy loop: each enemy of the vector is updated in place. *)
Fixpoint updateEnemies (deltaTime : Q) (g : t) (es : list Enemy.t)
    : t * list Enemy.t :=
  match es with
  | [] => (g, [])
  | enemy :: rest =>
      let '(g1, enemy1) := enemyStep deltaTime g enemy in
      let '(g2, rest1) := updateEnemies deltaTime g1 rest in
      (g2, enemy1 :: rest1)
  end.

(** Body of the coin loop of [Game::update]. *)
Definition coinStep (deltaTime : Q) (g : t) (coin : Coin.t) : t * Coin.t :=
  let coin := Coin.update deltaTime coin in
  if negb (Coin.collected coin)
     && checkCollision (getGlobalBounds (Player.sprite (player g)))
                       (getGlobalBounds (Coin.sprite coin))
  then (set_score (score g + 10) g, Coin.set_collected true coin)
  else (g, coin).

Fixpoint updateCoins (deltaTime : Q) (g : t) (cs : list Coin.t)
    : t * list Coin.t :=
  match cs with
  | [] => (g, [])
  | coin :: rest =>
      let '(g1, coin1) := coinStep deltaTime g coin in
      let '(g2, rest1) := updateCoins deltaTime g1 rest in
      (g2, coin1 :: rest1)
  end.

(** The camera follows the player and is clamped to the level, whose
    width the source takes to be 2000. *)
Definition updateView (g : t) : t :=
  let v := MakeView
             (V2 (x (getPosition (Player.sprite (player g)))
                  + x (size (getGlobalBounds (Player.sprite (player g)))) / 2)
                 (y (center (view g))))
             (viewSize (view g)) in
  let minViewX := inject_Z (fst (windowSize g)) / 2 in
  let maxViewX := 2000 - inject_Z (fst (windowSize g)) / 2 in
  let v := if Qltb (x (center v)) minViewX then
             MakeView (V2 minViewX (y (center v))) (viewSize v)
           else if Qltb maxViewX (x (center v)) then
             MakeView (V2 maxViewX (y (center v))) (viewSize v)
           else v in
  set_view v g.

(** [Game::update], from the enemy loop to its end. *)
Definition updateEntities (deltaTime : Q) (g : t) : t :=
  let '(g1, es) := updateEnemies deltaTime g (enemies g) in
  let g := set_enemies es g1 in
  let '(g2, cs) := updateCoins deltaTime g (coins g) in
  let g := set_coins cs g2 in
  updateView g.

(** [Game::update(deltaTime)] *)
Definition update (deltaTime : Q) (g : t) : t :=
  let g := set_player (Player.update deltaTime (platforms g) (player g)) g in
  if Qltb 700 (y (getPosition (Player.sprite (player g)))) then
    let g := set_lives (lives g - 1) g in
    if (lives g <=? 0)%Z then
      set_currentState GameOver g          (* return *)
    else
      let g := set_player (respawn (player g)) g in
      updateEntities deltaTime g
  else updateEntities deltaTime g.


(** What one iteration of the loop of [Game::run] reads from outside. *)
Record FrameInput : Type := MakeInput {
  deltaTime : Q;
  events : list Event;
  isKeyPressed : Keyboard
}.

(** Body of the [while] loop of [Game::run]. *)
Definition frame (i : FrameInput) (g : t) : t :=
  let g := handleEvents (events i) (isKeyPressed i) g in
  match currentState g with
  | Playing => update (deltaTime i) g
  | GameOver => g
  end.

(** [Game::run()], over the inputs of the successive frames. *)
Fixpoint run (inputs : list FrameInput) (g : t) : t :=
  match inputs with
  | [] => g
  | i :: rest => if windowOpen g then run rest (frame i g) else g
  end.

End Game.

(** ** Coin animation *)

(** The animation fields of [Coin], which [Coin::update] alone reads and
    writes.  Its three readings of the outside are arguments: the width of
    the loaded texture, the width of the sprite and the time on the
    animation clock.  The boolean result tells whether the clock is
    restarted. *)
Module CoinAnimation.

Record t : Type := Make {
  currentFrame : Z;
  frameTime : Q;
  numFrames : Z;
  textureRectX : Z              (* textureRect.position.x *)
}.

(** The initial values given by [Coin::Coin]. *)
Definition new : t := Make 0 (1 # 10) 4 0.

(** [static_cast<int>] of a [float]: truncation towards zero. *)
Definition static_cast_int (q : Q) : Z :=
  if Qltb q 0 then Qceiling q else Qfloor q.

(** [Coin::update(deltaTime)] *)
Definition update (textureWidth : Z) (spriteWidth elapsed : Q) (a : t)
    : t * bool :=
  if Qltb spriteWidth (inject_Z textureWidth) && (1 <? numFrames a)%Z then
    if Qleb (frameTime a) elapsed then
      let frame := Z.rem (currentFrame a + 1) (numFrames a) in
      (Make frame (frameTime a) (numFrames a)
            (frame * static_cast_int spriteWidth), true)
    else (a, false)
  else (a, false).

(** [n] calls of [Coin::update] that each find the frame time elapsed. *)
Fixpoint ticks (textureWidth : Z) (spriteWidth : Q) (n : nat) (a : t) : t :=
  match n with
  | O => a
  | S k => ticks textureWidth spriteWidth k
             (fst (update textureWidth spriteWidth (frameTime a) a))
  end.

End CoinAnimation.

(** ** Notions used in the statements *)

(** The test of the platform loops of [Player::update]. *)
Definition overlaps (p : Player.t) (platform : RectangleShape) : bool :=
  checkCollision (getGlobalBounds (Player.sprite p)) (getGlobalBounds platform).


(** The test of the coin loop. *)
Definition pickedUp (p : Player.t) (c : Coin.t) : bool :=
  negb (Coin.collected c)
  && checkCollision (getGlobalBounds (Player.sprite p))
                    (getGlobalBounds (Coin.sprite c)).

(** What the coin loop does to one coin. *)
Definition pickUp (p : Player.t) (c : Coin.t) : Coin.t :=
  if pickedUp p c then Coin.set_collected true c else c.

(** A coin [a] and the same coin [b] later on: it has not moved, and if it
    was collected it still is. *)
Definition staysCollected (a b : Coin.t) : Prop :=
  Coin.sprite b = Coin.sprite a
  /\ (Coin.collected a = true -> Coin.collected b = true).


(** A frame whose events do not include the restart key. *)
Definition noRestart (i : Game.FrameInput) : Prop :=
  ~ In (KeyPressed KeyR) (Game.events i).

(** [Game::update] returns at the fall test: the physics step has left the
    player below y = 700 and the life it costs is the last. *)
Definition returnsEarly (deltaTime : Q) (g : Game.t) : bool :=
  Qltb 700
       (y (getPosition
             (Player.sprite
                (Player.update deltaTime (Game.platforms g) (Game.player g)))))
  && (Game.lives g - 1 <=? 0)%Z.

(** No frame of the run resets the level: [initLevel] is only called for
    the restart key in a frame that starts in [GameOver]. *)
Fixpoint noReset (inputs : list Game.FrameInput) (g : Game.t) : Prop :=
  match inputs with
  | [] => True
  | i :: rest =>
      Game.windowOpen g = true ->
      (Game.currentState g = Playing \/ noRestart i)
      /\ noReset rest (Game.frame i g)
  end.

(** The fields of the game proper, as opposed to the window and camera. *)
Definition sameGameplay (g g' : Game.t) : Prop :=
  Game.currentState g' = Game.currentState g
  /\ Game.player g' = Game.player g
  /\ Game.platforms g' = Game.platforms g
  /\ Game.enemies g' = Game.enemies g
  /\ Game.coins g' = Game.coins g
  /\ Game.score g' = Game.score g
  /\ Game.lives g' = Game.lives g.

(** [Game::update] ends in [GameOver] only with no life left. *)
Definition overMeansNoLife (g : Game.t) : Prop :=
  Game.currentState g = GameOver -> (Game.lives g <= 0)%Z.

(** Conversely, with no life left the game is over. *)
Definition noLifeMeansOver (g : Game.t) : Prop :=
  (Game.lives g <= 0)%Z -> Game.currentState g = GameOver.

(** The result of hitting the underside of [platform]. *)
Definition bumpedOn (platform : RectangleShape) (p : Player.t) : Player.t :=
  Player.set_vy 0
    (Player.set_sprite
       (setPosition
          (V2 (x (getPosition (Player.sprite p)))
              (y (position (getGlobalBounds platform))
               + y (size (getGlobalBounds platform))
               + COLLISION_EPSILON))
          (Player.sprite p)) p).


(** A coin that lies wholly at or beyond x = 800 has not been collected. *)
Definition farUncollected (c : Coin.t) : Prop :=
  800 <= x (getPosition (Coin.sprite c)) ->
  0 <= x (getSize (Coin.sprite c)) ->
  Coin.collected c = false.

(** The camera is within the bounds that [Game::update] clamps it to. *)
Definition viewClamped (g : Game.t) : Prop :=
  inject_Z (fst (Game.windowSize g)) / 2 <= x (Game.center (Game.view g))
  /\ x (Game.center (Game.view g))
     <= 2000 - inject_Z (fst (Game.windowSize g)) / 2.

(** ** Example games *)


(** The game of the stomp examples: the level as [initLevel] builds it, the
    player in the air above the second enemy and falling at 200 units per
    second. *)
Definition stompGame : Game.t :=
  Game.set_player
    (Player.Make (Shape (V2 632 200) (V2 40 60)) (V2 0 200) false) Game.new.

(** The game of the damage example: the level as [initLevel] builds it, one
    life left, the player standing on the ground where the first enemy
    walks. *)
Definition lastLifeGame : Game.t :=
  Game.set_lives 1
    (Game.set_player
       (Player.Make (Shape (V2 300 440) (V2 40 60)) (V2 0 0) true) Game.new).

(** A frame in [GameOver] with the arrow and space keys held down, a
    resize and a key other than [R]. *)
Definition idleInput : Game.FrameInput :=
  Game.MakeInput (1 # 64) [Resized 1024 768; KeyPressed KeySpace]
                 (fun _ => true).

(** The games of the coin examples: the level as [initLevel] builds it, with
    the player standing on the first platform, over the first coin and clear
    of the enemies; and with the player standing on the second platform,
    over the second coin and in the way of the second enemy. *)
Definition coinGame : Game.t :=
  Game.set_player
    (Player.Make (Shape (V2 260 340) (V2 40 60)) (V2 0 0) true) Game.new.
Definition coinAndEnemyGame : Game.t :=
  Game.set_player
    (Player.Make (Shape (V2 565 240) (V2 40 60)) (V2 0 0) true) Game.new.

(** * Properties *)

(** ** Comparisons *)

Lemma Qltb_lt (a b : Q) : Qltb a b = true <-> a < b.
Proof.
  unfold Qltb. rewrite negb_true_iff, <- not_true_iff_false, Qle_bool_iff.
  split; intro H; [apply Qnot_le_lt | apply Qlt_not_le]; exact H.
Qed.

Lemma Qltb_ge (a b : Q) : Qltb a b = false <-> b <= a.
Proof.
  unfold Qltb. rewrite negb_false_iff. apply Qle_bool_iff.
Qed.

Lemma Qleb_le (a b : Q) : Qleb a b = true <-> a <= b.
Proof. apply Qle_bool_iff. Qed.

Lemma Qleb_gt (a b : Q) : Qleb a b = false <-> b < a.
Proof.
  unfold Qleb. rewrite <- not_true_iff_false, Qle_bool_iff.
  split; intro H; [apply Qnot_le_lt | apply Qlt_not_le]; exact H.
Qed.

(** ** Player: the vertical resolution loop *)

(** A player with no vertical velocity goes through the loop unchanged. *)
Lemma resolveVertical_at_rest (p : Player.t) (platform : RectangleShape) :
  y (Player.velocity p) = 0 -> Player.resolveVertical p platform = p.
Proof.
  intro Hvy. unfold Player.resolveVertical. rewrite Hvy.
  destruct (checkCollision _ _); reflexivity.
Qed.

Lemma fold_resolveVertical_at_rest (platforms : list RectangleShape) :
  forall p, y (Player.velocity p) = 0 ->
            fold_left Player.resolveVertical platforms p = p.
Proof.
  induction platforms as [|platform rest IH]; intros p Hvy; simpl.
  - reflexivity.
  - rewrite (resolveVertical_at_rest p platform Hvy). apply IH, Hvy.
Qed.


Lemma fold_resolveVertical_grounded (platforms : list RectangleShape) :
  forall p,
    (Player.onGround p = true -> y (Player.velocity p) = 0) ->
    Player.onGround (fold_left Player.resolveVertical platforms p) = true ->
    y (Player.velocity (fold_left Player.resolveVertical platforms p)) = 0.
Proof.
  induction platforms as [|pl rest IH]; intros p Hinv; simpl.
  - exact Hinv.
  - apply IH. unfold Player.resolveVertical.
    destruct (checkCollision _ _); [|exact Hinv].
    destruct (Qltb 0 _); [reflexivity|].
    destruct (Qltb _ 0); [|exact Hinv].
    simpl. intros _. reflexivity.
Qed.

Lemma clampLeft_vertical (p : Player.t) :
  y (Player.velocity (Player.clampLeft p)) = y (Player.velocity p)
  /\ Player.onGround (Player.clampLeft p) = Player.onGround p
  /\ y (getPosition (Player.sprite (Player.clampLeft p)))
     = y (getPosition (Player.sprite p))
  /\ getSize (Player.sprite (Player.clampLeft p)) = getSize (Player.sprite p).
Proof.
  unfold Player.clampLeft. destruct (Qltb _ 0); repeat split; reflexivity.
Qed.

Lemma clampRight_vertical (p : Player.t) :
  y (Player.velocity (Player.clampRight p)) = y (Player.velocity p)
  /\ Player.onGround (Player.clampRight p) = Player.onGround p
  /\ y (getPosition (Player.sprite (Player.clampRight p)))
     = y (getPosition (Player.sprite p))
  /\ getSize (Player.sprite (Player.clampRight p)) = getSize (Player.sprite p).
Proof.
  unfold Player.clampRight. destruct (Qltb 800 _); repeat split; reflexivity.
Qed.




(** C10.  After [Player::update], [onGround] implies a zero vertical
    velocity. *)
Theorem update_onGround_vy_zero
    (deltaTime : Q) (platforms : list RectangleShape) (p : Player.t) :
  Player.onGround (Player.update deltaTime platforms p) = true ->
  y (Player.velocity (Player.update deltaTime platforms p)) = 0.
Proof.
  unfold Player.update.
  set (q := Player.verticalStep _ _ _).
  destruct (clampRight_vertical (Player.clampLeft q)) as (-> & -> & _).
  destruct (clampLeft_vertical q) as (-> & -> & _).
  subst q. unfold Player.verticalStep.
  apply fold_resolveVertical_grounded.
  simpl. discriminate.
Qed.

Lemma update_onGround_vy_zero_witness :
  Player.onGround
    (Player.update (1 # 64) Game.levelPlatforms (Player.new 100 440)) = true
  /\ y (Player.velocity
          (Player.update (1 # 64) Game.levelPlatforms (Player.new 100 440))) = 0.
Proof.
  split; [reflexivity|].
  apply (update_onGround_vy_zero (1 # 64) Game.levelPlatforms (Player.new 100 440)).
  reflexivity.
Defined.

(** ** Player: the horizontal clamp *)

(** Whatever the platforms, a player no wider than 800 units ends
    [Player::update] between x = 0 and x = 800 - width: the clamp uses the
    window width, not the level width. *)
Lemma update_x_within_window
    (deltaTime : Q) (platforms : list RectangleShape) (p : Player.t) :
  0 <= x (getSize (Player.sprite p)) <= 800 ->
  let p' := Player.update deltaTime platforms p in
  0 <= x (getPosition (Player.sprite p'))
  /\ x (getPosition (Player.sprite p')) + x (getSize (Player.sprite p')) <= 800.
Proof.
  intros Hw p'. subst p'. unfold Player.update.
  set (q := Player.verticalStep _ _ _).
  assert (Hsize : getSize (Player.sprite (Player.clampLeft q))
                  = getSize (Player.sprite p)).
  { destruct (clampLeft_vertical q) as (_ & _ & _ & ->).
    subst q. unfold Player.verticalStep.
    assert (Hv : forall l r, getSize (Player.sprite (fold_left Player.resolveVertical l r))
                             = getSize (Player.sprite r)).
    { induction l as [|pl l IH]; intro r; simpl; [reflexivity|].
      rewrite IH. unfold Player.resolveVertical.
      destruct (checkCollision _ _); [|reflexivity].
      destruct (Qltb 0 _); [reflexivity|]. destruct (Qltb _ 0); reflexivity. }
    assert (Hh : forall l r, getSize (Player.sprite (fold_left Player.resolveHorizontal l r))
                             = getSize (Player.sprite r)).
    { induction l as [|pl l IH]; intro r; simpl; [reflexivity|].
      rewrite IH. unfold Player.resolveHorizontal.
      destruct (checkCollision _ _); [|reflexivity].
      destruct (Qltb 0 _); [reflexivity|]. destruct (Qltb _ 0); reflexivity. }
    rewrite Hv. simpl. rewrite Hh. reflexivity. }
  assert (Hleft : 0 <= x (getPosition (Player.sprite (Player.clampLeft q)))).
  { unfold Player.clampLeft. destruct (Qltb _ 0) eqn:Hc; simpl.
    - apply Qle_refl.
    - apply Qltb_ge in Hc. exact Hc. }
  revert Hsize Hleft. generalize (Player.clampLeft q). intros r Hsize Hleft.
  unfold Player.clampRight. destruct (Qltb 800 _) eqn:Hc; simpl in *.
  - rewrite Hsize. split; lra.
  - apply Qltb_ge in Hc. split; assumption.
Qed.

(** C8, on the code.  A player in mid-air at x = 758 moving right at 200
    units per second is, after a frame of 1/64 s, at x = 761.125: inside the
    2000 units of the level, whose right clamp would be at 1960.  The code
    puts it back at 760 = 800 - 40 and zeroes [vx]. *)
Theorem update_clamps_at_window_width :
  let p := Player.Make (Shape (V2 758 100) (V2 40 60)) (V2 200 0) false in
  let p' := Player.update (1 # 64) Game.levelPlatforms p in
  0 <= 758 + 200 * (1 # 64)
  /\ 758 + 200 * (1 # 64) <= 2000 - x (getSize (Player.sprite p))
  /\ x (getPosition (Player.sprite p')) == 760
  /\ x (Player.velocity p') = 0.
Proof.
  cbv zeta. split; [|split; [|split]].
  - vm_compute. discriminate.
  - vm_compute. discriminate.
  - vm_compute. reflexivity.
  - vm_compute. reflexivity.
Qed.

(** ** Enemy: the patrol *)

(** C3, as amended.  For an enemy whose patrol range is at least as wide as
    its sprite, every [Enemy::update] leaves it within
    [[leftBound, rightBound - width]].  The velocity is reversed exactly when
    the moved sprite touches a bound (left edge at or before [leftBound],
    right edge at or after [rightBound]), and the position is then set to
    [leftBound], respectively [rightBound - width]; otherwise velocity and
    moved position are kept.  The bounds themselves never change. *)
Theorem enemy_update_patrol (deltaTime : Q) (e : Enemy.t) :
  Enemy.leftBound e <= Enemy.rightBound e - x (getSize (Enemy.sprite e)) ->
  let w := x (getSize (Enemy.sprite e)) in
  let moved := x (getPosition (Enemy.sprite e)) + x (Enemy.velocity e) * deltaTime in
  let e' := Enemy.update deltaTime e in
  (Enemy.leftBound e <= x (getPosition (Enemy.sprite e'))
   /\ x (getPosition (Enemy.sprite e')) <= Enemy.rightBound e - w)
  /\ (moved <= Enemy.leftBound e ->
      x (Enemy.velocity e') = x (Enemy.velocity e) * -1
      /\ x (getPosition (Enemy.sprite e')) = Enemy.leftBound e)
  /\ (Enemy.leftBound e < moved -> Enemy.rightBound e <= moved + w ->
      x (Enemy.velocity e') = x (Enemy.velocity e) * -1
      /\ x (getPosition (Enemy.sprite e')) = Enemy.rightBound e - w)
  /\ (Enemy.leftBound e < moved -> moved + w < Enemy.rightBound e ->
      Enemy.velocity e' = Enemy.velocity e
      /\ x (getPosition (Enemy.sprite e')) = moved)
  /\ Enemy.leftBound e' = Enemy.leftBound e
  /\ Enemy.rightBound e' = Enemy.rightBound e
  /\ getSize (Enemy.sprite e') = getSize (Enemy.sprite e).
Proof.
  destruct e as [[[px py] [w h]] [vx vy] l r]. simpl. intro Hrange.
  unfold Enemy.update, Enemy.hitsBound. simpl.
  destruct (Qleb (px + vx * deltaTime) l) eqn:Hl; simpl.
  - apply Qleb_le in Hl.
    repeat split; try reflexivity; try lra.
  - destruct (Qleb r (px + vx * deltaTime + w)) eqn:Hr; simpl.
    + rewrite ?Hl. simpl. apply Qleb_gt in Hl. apply Qleb_le in Hr.
      repeat split; try reflexivity; try lra.
    + apply Qleb_gt in Hl. apply Qleb_gt in Hr.
      repeat split; try reflexivity; try lra.
Qed.

Lemma enemy_update_patrol_witness :
  let e := Enemy.new 300 460 250 450 in
  Enemy.leftBound e <= Enemy.rightBound e - x (getSize (Enemy.sprite e))
  /\ Enemy.leftBound e <= x (getPosition (Enemy.sprite (Enemy.update (1 # 64) e))).
Proof.
  cbv zeta.
  assert (H : Enemy.leftBound (Enemy.new 300 460 250 450)
              <= Enemy.rightBound (Enemy.new 300 460 250 450)
                 - x (getSize (Enemy.sprite (Enemy.new 300 460 250 450)))).
  { vm_compute. discriminate. }
  split; [exact H|].
  exact (proj1 (proj1 (enemy_update_patrol (1 # 64) (Enemy.new 300 460 250 450) H))).
Defined.

(** C3, as stated, fails: the second enemy of the level is constructed
    inside its range [[550, 700 - 40]]; one [Game::update] later the player
    has stomped it and its x position is -1000. *)
Lemma stomp_leaves_patrol_range_counterexample :
  exists e0 e1,
    nth_error (Game.enemies stompGame) 1 = Some e0
    /\ nth_error (Game.enemies (Game.update (1 # 64) stompGame)) 1 = Some e1
    /\ (Enemy.leftBound e0 <= x (getPosition (Enemy.sprite e0))
        /\ x (getPosition (Enemy.sprite e0))
           <= Enemy.rightBound e0 - x (getSize (Enemy.sprite e0)))
    /\ Enemy.leftBound e1 = Enemy.leftBound e0
    /\ Enemy.rightBound e1 = Enemy.rightBound e0
    /\ ~ (Enemy.leftBound e1 <= x (getPosition (Enemy.sprite e1))).
Proof.
  eexists. eexists.
  split; [vm_compute; reflexivity|].
  split; [vm_compute; reflexivity|].
  split; [split; vm_compute; discriminate|].
  split; [reflexivity|]. split; [reflexivity|].
  vm_compute. intro H. apply H. reflexivity.
Qed.

(** ** Game: the player-enemy interaction *)

(** C2.  When the player's bounds overlap those of an enemy that has just
    been updated, the interaction is a stomp if and only if the player's
    vertical velocity is positive and its bottom edge is less than the
    enemy's top edge plus 20.  A stomp moves the enemy off-screen, adds 100
    to the score and sets the player's vertical velocity to
    [PLAYER_JUMP_VELOCITY / 2], that is -250; every other overlap is
    damage: a life is lost and the player is sent back to the start. *)
Theorem enemyStep_stomp_or_damage (deltaTime : Q) (g : Game.t) (e : Enemy.t) :
  let e1 := Enemy.update deltaTime e in
  let p := Game.player g in
  checkCollision (getGlobalBounds (Player.sprite p))
                 (getGlobalBounds (Enemy.sprite e1)) = true ->
  let r := Game.enemyStep deltaTime g e in
  (Game.isStomp p e1 = true <->
   0 < y (Player.velocity p)
   /\ bottomEdge (Player.sprite p) < topEdge (Enemy.sprite e1) + 20)
  /\ (Game.isStomp p e1 = true ->
      getPosition (Enemy.sprite (snd r)) = V2 (-1000) (-1000)
      /\ Game.score (fst r) = (Game.score g + 100)%Z
      /\ y (Player.velocity (Game.player (fst r))) = PLAYER_JUMP_VELOCITY / 2
      /\ PLAYER_JUMP_VELOCITY / 2 == -250
      /\ Player.sprite (Game.player (fst r)) = Player.sprite p
      /\ Game.lives (fst r) = Game.lives g
      /\ Game.currentState (fst r) = Game.currentState g)
  /\ (Game.isStomp p e1 = false ->
      snd r = e1
      /\ Game.score (fst r) = Game.score g
      /\ Game.lives (fst r) = (Game.lives g - 1)%Z
      /\ Game.player (fst r) = Game.respawn p
      /\ Game.currentState (fst r)
         = if (Game.lives g - 1 <=? 0)%Z then GameOver else Game.currentState g).
Proof.
  intros e1 p Hoverlap r. subst r. unfold Game.enemyStep.
  fold e1. fold p. rewrite Hoverlap. unfold Game.interact. fold p.
  split; [|split].
  - unfold Game.isStomp, bottomEdge, topEdge.
    rewrite andb_true_iff, !Qltb_lt. reflexivity.
  - intros ->. simpl. repeat split; reflexivity.
  - intros ->. simpl. destruct (Game.lives g - 1 <=? 0)%Z; repeat split; reflexivity.
Qed.

Lemma enemyStep_stomp_or_damage_witness :
  let e := Enemy.new 600 260 550 700 in
  let p := Player.Make (Shape (V2 632 205) (V2 40 60)) (V2 0 200) false in
  let g := Game.set_player p Game.new in
  checkCollision (getGlobalBounds (Player.sprite p))
                 (getGlobalBounds (Enemy.sprite (Enemy.update (1 # 64) e))) = true
  /\ (Game.isStomp p (Enemy.update (1 # 64) e) = true <->
      0 < y (Player.velocity p)
      /\ bottomEdge (Player.sprite p)
         < topEdge (Enemy.sprite (Enemy.update (1 # 64) e)) + 20).
Proof.
  cbv zeta. split; [reflexivity|].
  exact (proj1 (enemyStep_stomp_or_damage (1 # 64)
                  (Game.set_player
                     (Player.Make (Shape (V2 632 205) (V2 40 60)) (V2 0 200) false)
                     Game.new)
                  (Enemy.new 600 260 550 700) eq_refl)).
Defined.

(** C5, on the code.  With one life left and the player hit by the first
    enemy, [Game::update] ends with no life and in [GameOver], as claimed;
    but the player, whom the physics step left at (300, 440), has been moved
    to the start position (100, 400) before the test on [lives], and the
    enemy loop has gone on: the second enemy has made its move of the
    frame. *)
Theorem damage_on_last_life_respawns :
  let g := lastLifeGame in
  let physics := Player.update (1 # 64) (Game.platforms g) (Game.player g) in
  let g' := Game.update (1 # 64) g in
  Game.lives g = 1%Z
  /\ Game.currentState g = Playing
  /\ x (getPosition (Player.sprite physics)) == 300
  /\ y (getPosition (Player.sprite physics)) == 440
  /\ Game.lives g' = 0%Z
  /\ Game.currentState g' = GameOver
  /\ getPosition (Player.sprite (Game.player g')) = V2 100 400
  /\ exists e0 e1,
       nth_error (Game.enemies g) 1 = Some e0
       /\ nth_error (Game.enemies g') 1 = Some e1
       /\ x (getPosition (Enemy.sprite e0)) = 600
       /\ x (getPosition (Enemy.sprite e1)) == 600 + 80 * (1 # 64).
Proof.
  cbv zeta.
  split; [vm_compute; reflexivity|]. split; [vm_compute; reflexivity|].
  split; [vm_compute; reflexivity|]. split; [vm_compute; reflexivity|].
  split; [vm_compute; reflexivity|]. split; [vm_compute; reflexivity|].
  split; [vm_compute; reflexivity|].
  eexists. eexists.
  split; [vm_compute; reflexivity|]. split; [vm_compute; reflexivity|].
  split; vm_compute; reflexivity.
Qed.

(** ** Game: what the loops of [Game::update] preserve *)

Lemma updateEnemies_cons (deltaTime : Q) (g : Game.t) (e : Enemy.t)
    (rest : list Enemy.t) :
  Game.updateEnemies deltaTime g (e :: rest)
  = (fst (Game.updateEnemies deltaTime (fst (Game.enemyStep deltaTime g e)) rest),
     snd (Game.enemyStep deltaTime g e)
     :: snd (Game.updateEnemies deltaTime (fst (Game.enemyStep deltaTime g e)) rest)).
Proof.
  cbn [Game.updateEnemies].
  destruct (Game.enemyStep deltaTime g e) as [g1 e1]. cbn [fst snd].
  destruct (Game.updateEnemies deltaTime g1 rest) as [g2 rest1]. reflexivity.
Qed.

Lemma updateCoins_cons (deltaTime : Q) (g : Game.t) (c : Coin.t)
    (rest : list Coin.t) :
  Game.updateCoins deltaTime g (c :: rest)
  = (fst (Game.updateCoins deltaTime (fst (Game.coinStep deltaTime g c)) rest),
     snd (Game.coinStep deltaTime g c)
     :: snd (Game.updateCoins deltaTime (fst (Game.coinStep deltaTime g c)) rest)).
Proof.
  cbn [Game.updateCoins].
  destruct (Game.coinStep deltaTime g c) as [g1 c1]. cbn [fst snd].
  destruct (Game.updateCoins deltaTime g1 rest) as [g2 rest1]. reflexivity.
Qed.

Section LoopInvariants.

Variable deltaTime : Q.
Variable P : Game.t -> Prop.

Lemma updateEnemies_preserves :
  (forall g e, P g -> P (fst (Game.enemyStep deltaTime g e))) ->
  forall es g, P g -> P (fst (Game.updateEnemies deltaTime g es)).
Proof.
  intro Hstep. induction es as [|e rest IH]; intros g Hg.
  - exact Hg.
  - rewrite updateEnemies_cons. cbn [fst]. apply IH, Hstep, Hg.
Qed.

Lemma updateCoins_preserves :
  (forall g c, P g -> P (fst (Game.coinStep deltaTime g c))) ->
  forall cs g, P g -> P (fst (Game.updateCoins deltaTime g cs)).
Proof.
  intro Hstep. induction cs as [|c rest IH]; intros g Hg.
  - exact Hg.
  - rewrite updateCoins_cons. cbn [fst]. apply IH, Hstep, Hg.
Qed.

End LoopInvariants.

Section LoopRelations.

Variable deltaTime : Q.


Lemma updateCoins_pointwise (R : Coin.t -> Coin.t -> Prop) :
  (forall g c, R c (snd (Game.coinStep deltaTime g c))) ->
  forall cs g, Forall2 R cs (snd (Game.updateCoins deltaTime g cs)).
Proof.
  intro Hstep. induction cs as [|c rest IH]; intro g.
  - constructor.
  - rewrite updateCoins_cons. cbn [snd]. constructor; [apply Hstep | apply IH].
Qed.

End LoopRelations.

Lemma Forall2_same {A : Type} (R : A -> A -> Prop) :
  (forall a, R a a) -> forall l, Forall2 R l l.
Proof.
  intros Hrefl l. induction l; constructor; auto.
Qed.

(** The fields that one turn of the enemy loop, respectively of the coin
    loop, leaves alone. *)
Lemma enemyStep_fields (deltaTime : Q) (g : Game.t) (e : Enemy.t) :
  Game.coins (fst (Game.enemyStep deltaTime g e)) = Game.coins g
  /\ Game.platforms (fst (Game.enemyStep deltaTime g e)) = Game.platforms g
  /\ Game.enemies (fst (Game.enemyStep deltaTime g e)) = Game.enemies g.
Proof.
  unfold Game.enemyStep, Game.interact.
  destruct (checkCollision _ _); [|repeat split; reflexivity].
  destruct (Game.isStomp _ _); [repeat split; reflexivity|].
  destruct (_ <=? 0)%Z; repeat split; reflexivity.
Qed.

Lemma coinStep_fields (deltaTime : Q) (g : Game.t) (c : Coin.t) :
  Game.player (fst (Game.coinStep deltaTime g c)) = Game.player g
  /\ Game.enemies (fst (Game.coinStep deltaTime g c)) = Game.enemies g
  /\ Game.lives (fst (Game.coinStep deltaTime g c)) = Game.lives g
  /\ Game.currentState (fst (Game.coinStep deltaTime g c)) = Game.currentState g.
Proof.
  unfold Game.coinStep. destruct (_ && _); repeat split; reflexivity.
Qed.

(** [Game::update], from the enemy loop on, by the results of its loops. *)
Lemma updateEntities_unfold (deltaTime : Q) (g : Game.t) :
  let r1 := Game.updateEnemies deltaTime g (Game.enemies g) in
  let g1 := Game.set_enemies (snd r1) (fst r1) in
  let r2 := Game.updateCoins deltaTime g1 (Game.coins g1) in
  Game.updateEntities deltaTime g
  = Game.updateView (Game.set_coins (snd r2) (fst r2)).
Proof.
  unfold Game.updateEntities.
  destruct (Game.updateEnemies deltaTime g (Game.enemies g)) as [h es].
  cbn [fst snd].
  destruct (Game.updateCoins deltaTime _ _) as [h2 cs].
  reflexivity.
Qed.


Lemma updateEntities_coins (deltaTime : Q) (g : Game.t) :
  exists g1,
    Game.coins (Game.updateEntities deltaTime g)
    = snd (Game.updateCoins deltaTime g1 (Game.coins g)).
Proof.
  rewrite updateEntities_unfold. cbv zeta.
  set (r1 := Game.updateEnemies deltaTime g (Game.enemies g)).
  set (g1 := Game.set_enemies (snd r1) (fst r1)).
  exists g1.
  assert (H : Game.coins g1 = Game.coins g).
  { change (Game.coins (fst r1) = Game.coins g). subst r1.
    apply (updateEnemies_preserves deltaTime (fun h => Game.coins h = Game.coins g)).
    - intros h e Hh. rewrite <- Hh. apply enemyStep_fields.
    - reflexivity. }
  rewrite <- H. reflexivity.
Qed.

(** ** Game: a stomped enemy *)









(** ** Game: the level reset *)

(** C4.  The restart, that is the [R] key event handled in [GameOver],
    is [initLevel]; whatever the game was before, the result has score 0,
    three lives, the player at (100, 400) with no velocity, the platforms,
    enemies and coins of a newly constructed game, every coin uncollected,
    and is in state [Playing]; resetting it once more changes nothing. *)
Theorem restart_gives_initial_configuration (g : Game.t) :
  Game.currentState g = GameOver ->
  let g' := Game.handleEvent g (KeyPressed KeyR) in
  g' = Game.initLevel g
  /\ Game.score g' = 0%Z
  /\ Game.lives g' = 3%Z
  /\ getPosition (Player.sprite (Game.player g')) = V2 100 400
  /\ Player.velocity (Game.player g') = V2 0 0
  /\ (getSize (Player.sprite (Game.player g)) = V2 40 60 ->
      Game.player g' = Game.player Game.new)
  /\ Game.platforms g' = Game.platforms Game.new
  /\ Game.enemies g' = Game.enemies Game.new
  /\ Game.coins g' = Game.coins Game.new
  /\ Forall (fun c => Coin.collected c = false) (Game.coins g')
  /\ Game.currentState g' = Playing
  /\ Game.initLevel g' = g'.
Proof.
  intros Hstate g'.
  assert (Hg' : g' = Game.initLevel g).
  { subst g'. unfold Game.handleEvent. rewrite Hstate. reflexivity. }
  rewrite Hg'. clear Hg' g'.
  split; [reflexivity|]. split; [reflexivity|]. split; [reflexivity|].
  split; [reflexivity|]. split; [reflexivity|].
  split.
  { intro Hsize.
    change (Game.player (Game.initLevel g))
      with (Player.set_onGround false (Game.respawn (Game.player g))).
    destruct (Game.player g) as [[pos sz] vel ground].
    cbn in Hsize. subst sz. reflexivity. }
  split; [reflexivity|]. split; [reflexivity|]. split; [reflexivity|].
  split.
  { repeat constructor. }
  split; reflexivity.
Qed.

Lemma restart_gives_initial_configuration_witness :
  let g := Game.update (1 # 64) lastLifeGame in
  Game.currentState g = GameOver
  /\ Game.handleEvent g (KeyPressed KeyR) = Game.initLevel g.
Proof.
  cbv zeta.
  assert (H : Game.currentState (Game.update (1 # 64) lastLifeGame) = GameOver)
    by (vm_compute; reflexivity).
  split; [exact H|].
  exact (proj1 (restart_gives_initial_configuration _ H)).
Defined.

(** ** Game: coins *)

Lemma coinStep_eq (deltaTime : Q) (g : Game.t) (c : Coin.t) :
  Game.coinStep deltaTime g c
  = if pickedUp (Game.player g) c
    then (Game.set_score (Game.score g + 10) g, Coin.set_collected true c)
    else (g, c).
Proof. reflexivity. Qed.

(** The coin loop in closed form: the player is the same for every coin,
    each coin picked up is marked and is worth 10. *)
Lemma updateCoins_closed_form (deltaTime : Q) (cs : list Coin.t) :
  forall g,
    Game.player (fst (Game.updateCoins deltaTime g cs)) = Game.player g
    /\ Game.score (fst (Game.updateCoins deltaTime g cs))
       = (Game.score g
          + 10 * Z.of_nat (length (filter (pickedUp (Game.player g)) cs)))%Z
    /\ snd (Game.updateCoins deltaTime g cs) = map (pickUp (Game.player g)) cs.
Proof.
  induction cs as [|c rest IH]; intro g.
  - cbn. repeat split; try reflexivity. lia.
  - rewrite updateCoins_cons. cbn [fst snd map filter].
    destruct (IH (fst (Game.coinStep deltaTime g c))) as (Hp & Hs & Hl).
    rewrite Hp, Hs, Hl. rewrite coinStep_eq. unfold pickUp at 2.
    destruct (pickedUp (Game.player g) c); cbn [fst snd length];
      repeat split; try reflexivity.
    cbn [Game.score Game.set_score Game.player]. lia.
Qed.

Lemma coinStep_staysCollected (deltaTime : Q) (g : Game.t) (c : Coin.t) :
  staysCollected c (snd (Game.coinStep deltaTime g c)).
Proof.
  rewrite coinStep_eq. destruct (pickedUp _ _); split; auto.
Qed.

Lemma update_staysCollected (deltaTime : Q) (g : Game.t) :
  Forall2 staysCollected (Game.coins g) (Game.coins (Game.update deltaTime g)).
Proof.
  assert (Hrefl : forall l, Forall2 staysCollected l l).
  { apply Forall2_same. intro a. split; auto. }
  assert (Hentities : forall h, Forall2 staysCollected (Game.coins h)
                                  (Game.coins (Game.updateEntities deltaTime h))).
  { intro h. destruct (updateEntities_coins deltaTime h) as [h1 ->].
    apply updateCoins_pointwise. apply coinStep_staysCollected. }
  unfold Game.update. cbv zeta.
  destruct (Qltb 700 _); [destruct (_ <=? 0)%Z|].
  - apply Hrefl.
  - match goal with
    | |- Forall2 _ _ (Game.coins (Game.updateEntities _ ?h)) => exact (Hentities h)
    end.
  - match goal with
    | |- Forall2 _ _ (Game.coins (Game.updateEntities _ ?h)) => exact (Hentities h)
    end.
Qed.

(** ** Game: events and the two states *)

Lemma sameGameplay_refl (g : Game.t) : sameGameplay g g.
Proof. repeat split. Qed.

Lemma sameGameplay_trans (g1 g2 g3 : Game.t) :
  sameGameplay g1 g2 -> sameGameplay g2 g3 -> sameGameplay g1 g3.
Proof.
  unfold sameGameplay.
  intros (A1 & A2 & A3 & A4 & A5 & A6 & A7) (B1 & B2 & B3 & B4 & B5 & B6 & B7).
  repeat split; congruence.
Qed.

(** An event restarts the game only if it is the [R] key and the game is
    over; any other event leaves the game proper as it is. *)
Lemma handleEvent_sameGameplay (g : Game.t) (event : Event) :
  Game.currentState g = Playing \/ event <> KeyPressed KeyR ->
  sameGameplay g (Game.handleEvent g event).
Proof.
  intros H. unfold Game.handleEvent.
  destruct event as [|w h|code|]; cbn [Game.currentState Game.set_windowOpen
    Game.set_view Game.set_windowSize];
    destruct (Game.currentState g) eqn:Hstate;
    try (unfold sameGameplay; cbn; rewrite ?Hstate; repeat split; reflexivity).
  destruct code; cbn [Key_eqb];
    try (unfold sameGameplay; rewrite ?Hstate; repeat split; reflexivity).
  destruct H as [H|H]; [discriminate | contradiction H; reflexivity].
Qed.

Lemma pollEvents_sameGameplay (queue : list Event) :
  forall g,
    Game.currentState g = Playing \/ ~ In (KeyPressed KeyR) queue ->
    sameGameplay g (Game.pollEvents g queue).
Proof.
  induction queue as [|event rest IH]; intros g H; cbn [Game.pollEvents].
  - apply sameGameplay_refl.
  - destruct (Game.windowOpen g); [|apply sameGameplay_refl].
    assert (Hstep : sameGameplay g (Game.handleEvent g event)).
    { apply handleEvent_sameGameplay. destruct H as [H|H]; [left; exact H|].
      right. intros ->. apply H. left. reflexivity. }
    apply (sameGameplay_trans _ _ _ Hstep). apply IH.
    destruct H as [H|H].
    + left. destruct Hstep as [-> _]. exact H.
    + right. intro Hin. apply H. right. exact Hin.
Qed.

Lemma pollEvents_restart (queue : list Event) :
  forall g,
    Game.currentState g = GameOver ->
    Game.currentState (Game.pollEvents g queue) = Playing ->
    In (KeyPressed KeyR) queue.
Proof.
  induction queue as [|event rest IH]; intros g Hover Hplaying;
    cbn [Game.pollEvents] in Hplaying.
  - congruence.
  - destruct (Game.windowOpen g); [|congruence].
    assert (Hcases : event = KeyPressed KeyR \/ event <> KeyPressed KeyR).
    { destruct event as [| | [] |]; (left; reflexivity) || (right; discriminate). }
    destruct Hcases as [->|Hother]; [left; reflexivity|].
    right. apply (IH (Game.handleEvent g event)); [|exact Hplaying].
    destruct (handleEvent_sameGameplay g event (or_intror Hother)) as [-> _].
    exact Hover.
Qed.

Lemma handleEvents_sameGameplay (queue : list Event) (keys : Keyboard)
    (g : Game.t) :
  Game.currentState g = Playing \/ ~ In (KeyPressed KeyR) queue ->
  Game.currentState (Game.handleEvents queue keys g) = Game.currentState g
  /\ Game.platforms (Game.handleEvents queue keys g) = Game.platforms g
  /\ Game.enemies (Game.handleEvents queue keys g) = Game.enemies g
  /\ Game.coins (Game.handleEvents queue keys g) = Game.coins g
  /\ Game.score (Game.handleEvents queue keys g) = Game.score g
  /\ Game.lives (Game.handleEvents queue keys g) = Game.lives g
  /\ (Game.currentState g = GameOver ->
      Game.player (Game.handleEvents queue keys g) = Game.player g).
Proof.
  intro H. unfold Game.handleEvents. cbv zeta.
  destruct (pollEvents_sameGameplay queue g H) as (A1 & A2 & A3 & A4 & A5 & A6 & A7).
  destruct (Game.currentState (Game.pollEvents g queue)) eqn:Hstate;
    cbn [Game.currentState Game.platforms Game.enemies Game.coins Game.score
         Game.lives Game.player Game.set_player];
    rewrite ?Hstate; repeat split; try assumption; congruence.
Qed.

Lemma enemyStep_overMeansNoLife (deltaTime : Q) (g : Game.t) (e : Enemy.t) :
  overMeansNoLife g -> overMeansNoLife (fst (Game.enemyStep deltaTime g e)).
Proof.
  unfold overMeansNoLife, Game.enemyStep, Game.interact. intro Hg.
  destruct (checkCollision _ _); [|exact Hg].
  destruct (Game.isStomp _ _); [exact Hg|].
  cbn [Game.lives Game.set_lives Game.set_player].
  destruct (Game.lives g - 1 <=? 0)%Z eqn:Hl; cbn [fst Game.currentState
    Game.lives Game.set_currentState Game.set_lives Game.set_player].
  - intros _. apply Z.leb_le. exact Hl.
  - intro Hover. specialize (Hg Hover). lia.
Qed.

Lemma updateEntities_overMeansNoLife (deltaTime : Q) (g : Game.t) :
  overMeansNoLife g -> overMeansNoLife (Game.updateEntities deltaTime g).
Proof.
  intro Hg. rewrite updateEntities_unfold. cbv zeta.
  set (r1 := Game.updateEnemies deltaTime g (Game.enemies g)).
  assert (H1 : overMeansNoLife (fst r1)).
  { apply updateEnemies_preserves; [apply enemyStep_overMeansNoLife | exact Hg]. }
  set (g1 := Game.set_enemies (snd r1) (fst r1)).
  assert (H2 : overMeansNoLife (fst (Game.updateCoins deltaTime g1 (Game.coins g1)))).
  { apply updateCoins_preserves; [|exact H1].
    intros h c Hh. unfold overMeansNoLife.
    destruct (coinStep_fields deltaTime h c) as (_ & _ & -> & ->). exact Hh. }
  exact H2.
Qed.

Lemma update_overMeansNoLife (deltaTime : Q) (g : Game.t) :
  Game.currentState g = Playing -> overMeansNoLife (Game.update deltaTime g).
Proof.
  intro Hplaying.
  assert (Hentities : forall h, Game.currentState h = Playing ->
                                overMeansNoLife (Game.updateEntities deltaTime h)).
  { intros h Hh. apply updateEntities_overMeansNoLife.
    unfold overMeansNoLife. congruence. }
  unfold Game.update. cbv zeta.
  destruct (Qltb 700 _); [destruct (_ <=? 0)%Z eqn:Hl|].
  - intros _. apply Z.leb_le. exact Hl.
  - apply Hentities. exact Hplaying.
  - apply Hentities. exact Hplaying.
Qed.

Lemma enemyStep_noLifeMeansOver (deltaTime : Q) (g : Game.t) (e : Enemy.t) :
  noLifeMeansOver g -> noLifeMeansOver (fst (Game.enemyStep deltaTime g e)).
Proof.
  unfold noLifeMeansOver, Game.enemyStep, Game.interact. intro Hg.
  destruct (checkCollision _ _); [|exact Hg].
  destruct (Game.isStomp _ _); [exact Hg|].
  cbn [Game.lives Game.set_lives Game.set_player].
  destruct (Game.lives g - 1 <=? 0)%Z eqn:Hl; cbn [fst Game.currentState
    Game.lives Game.set_currentState Game.set_lives Game.set_player].
  - intros _. reflexivity.
  - apply Z.leb_gt in Hl. intro Hno. lia.
Qed.

Lemma updateEntities_noLifeMeansOver (deltaTime : Q) (g : Game.t) :
  noLifeMeansOver g -> noLifeMeansOver (Game.updateEntities deltaTime g).
Proof.
  intro Hg. rewrite updateEntities_unfold. cbv zeta.
  set (r1 := Game.updateEnemies deltaTime g (Game.enemies g)).
  assert (H1 : noLifeMeansOver (fst r1)).
  { apply updateEnemies_preserves; [apply enemyStep_noLifeMeansOver | exact Hg]. }
  set (g1 := Game.set_enemies (snd r1) (fst r1)).
  assert (H2 : noLifeMeansOver (fst (Game.updateCoins deltaTime g1 (Game.coins g1)))).
  { apply updateCoins_preserves; [|exact H1].
    intros h c Hh. unfold noLifeMeansOver.
    destruct (coinStep_fields deltaTime h c) as (_ & _ & -> & ->). exact Hh. }
  exact H2.
Qed.

Lemma update_noLifeMeansOver (deltaTime : Q) (g : Game.t) :
  (0 < Game.lives g)%Z -> noLifeMeansOver (Game.update deltaTime g).
Proof.
  intro Hlives.
  assert (Hentities : forall h, (0 < Game.lives h)%Z ->
                                noLifeMeansOver (Game.updateEntities deltaTime h)).
  { intros h Hh. apply updateEntities_noLifeMeansOver.
    unfold noLifeMeansOver. lia. }
  unfold Game.update. cbv zeta.
  destruct (Qltb 700 _); [destruct (_ <=? 0)%Z eqn:Hl|].
  - intros _. reflexivity.
  - apply Hentities. apply Z.leb_gt in Hl. exact Hl.
  - apply Hentities. exact Hlives.
Qed.

(** ** Game: over the frames of [Game::run] *)

Lemma Forall2_trans {A : Type} (R : A -> A -> Prop) :
  (forall a b c, R a b -> R b c -> R a c) ->
  forall l1 l2, Forall2 R l1 l2 ->
  forall l3, Forall2 R l2 l3 -> Forall2 R l1 l3.
Proof.
  intros Htrans l1 l2 H12.
  induction H12 as [|a b l1 l2 Hab _ IH]; intros l3 H23; inversion H23; subst.
  - constructor.
  - constructor; [eapply Htrans; eassumption | apply IH; assumption].
Qed.

(** A relation between the successive values of a list of entities that
    each [Game::update] respects is respected by any number of frames,
    as long as no event handler rebuilds the list. *)
Section RunPointwise.

Context {A : Type}.
Variable entities : Game.t -> list A.
Variable R : A -> A -> Prop.

Hypothesis R_refl : forall a, R a a.
Hypothesis R_trans : forall a b c, R a b -> R b c -> R a c.
Hypothesis update_R :
  forall deltaTime g, Forall2 R (entities g) (entities (Game.update deltaTime g)).
Hypothesis handleEvents_keeps :
  forall queue keys g,
    ~ In (KeyPressed KeyR) queue ->
    entities (Game.handleEvents queue keys g) = entities g.

Lemma frame_pointwise (i : Game.FrameInput) (g : Game.t) :
  noRestart i -> Forall2 R (entities g) (entities (Game.frame i g)).
Proof.
  intro Hi. unfold Game.frame. cbv zeta.
  rewrite <- (handleEvents_keeps (Game.events i) (Game.isKeyPressed i) g Hi).
  destruct (Game.currentState (Game.handleEvents _ _ g)).
  - apply update_R.
  - apply Forall2_same, R_refl.
Qed.

Lemma run_pointwise (inputs : list Game.FrameInput) :
  forall g, Forall noRestart inputs ->
            Forall2 R (entities g) (entities (Game.run inputs g)).
Proof.
  induction inputs as [|i rest IH]; intros g Hall; cbn [Game.run].
  - apply Forall2_same, R_refl.
  - inversion Hall as [|i' rest' Hi Hrest]; subst.
    destruct (Game.windowOpen g); [|apply Forall2_same, R_refl].
    apply (Forall2_trans R R_trans _ _ (frame_pointwise i g Hi)).
    apply IH, Hrest.
Qed.

End RunPointwise.

Lemma run_staysCollected (inputs : list Game.FrameInput) (g : Game.t) :
  Forall noRestart inputs ->
  Forall2 staysCollected (Game.coins g) (Game.coins (Game.run inputs g)).
Proof.
  apply (run_pointwise Game.coins staysCollected).
  - intro a. split; auto.
  - intros a b c [Hab1 Hab2] [Hbc1 Hbc2]. split; [congruence | auto].
  - intros deltaTime h. apply update_staysCollected.
  - intros queue keys h Hq.
    apply (handleEvents_sameGameplay queue keys h (or_intror Hq)).
Qed.


(** ** Game: a stomped enemy, over time *)




(** ** Game: the state machine *)

(** C7.  Over one iteration of the loop of [Game::run]: the state goes from
    [Playing] to [GameOver] only with no life left, and does so as soon as
    the lives of a game that had some are used up; it goes from [GameOver]
    to [Playing] only if the [R] key was pressed; and in [GameOver], without
    that key, the state remains [GameOver] and player, platforms, enemies,
    coins, score and lives are exactly as before, whatever the other events
    and the keys held down. *)
Theorem frame_transitions (i : Game.FrameInput) (g : Game.t) :
  let g' := Game.frame i g in
  (Game.currentState g = Playing -> Game.currentState g' = GameOver ->
   (Game.lives g' <= 0)%Z)
  /\ (Game.currentState g = Playing -> (0 < Game.lives g)%Z ->
      (Game.lives g' <= 0)%Z -> Game.currentState g' = GameOver)
  /\ (Game.currentState g = GameOver -> Game.currentState g' = Playing ->
      In (KeyPressed KeyR) (Game.events i))
  /\ (Game.currentState g = GameOver -> ~ In (KeyPressed KeyR) (Game.events i) ->
      sameGameplay g g').
Proof.
  cbv zeta. unfold Game.frame. split; [|split; [|split]].
  - intros Hplaying.
    destruct (handleEvents_sameGameplay (Game.events i) (Game.isKeyPressed i) g
                (or_introl Hplaying)) as (Hstate & _).
    rewrite Hplaying in Hstate. rewrite Hstate.
    apply update_overMeansNoLife. exact Hstate.
  - intros Hplaying Hlives.
    destruct (handleEvents_sameGameplay (Game.events i) (Game.isKeyPressed i) g
                (or_introl Hplaying)) as (Hstate & _ & _ & _ & _ & Hl & _).
    rewrite Hplaying in Hstate. rewrite Hstate.
    apply update_noLifeMeansOver. rewrite Hl. exact Hlives.
  - intros Hover Hplaying.
    apply (pollEvents_restart (Game.events i) g Hover).
    unfold Game.handleEvents in Hplaying. cbv zeta in Hplaying.
    destruct (Game.currentState (Game.pollEvents g (Game.events i))) eqn:Hpoll.
    + reflexivity.
    + rewrite Hpoll in Hplaying. congruence.
  - intros Hover Hnokey.
    destruct (handleEvents_sameGameplay (Game.events i) (Game.isKeyPressed i) g
                (or_intror Hnokey)) as (H1 & H2 & H3 & H4 & H5 & H6 & H7).
    specialize (H7 Hover). rewrite Hover in H1. rewrite H1.
    unfold sameGameplay. rewrite Hover. repeat split; assumption.
Qed.

Lemma frame_transitions_witness :
  let g := Game.update (1 # 64) lastLifeGame in
  Game.currentState g = GameOver
  /\ ~ In (KeyPressed KeyR) (Game.events idleInput)
  /\ sameGameplay g (Game.frame idleInput g).
Proof.
  cbv zeta.
  assert (Hover : Game.currentState (Game.update (1 # 64) lastLifeGame) = GameOver)
    by (vm_compute; reflexivity).
  assert (Hnokey : ~ In (KeyPressed KeyR) (Game.events idleInput)).
  { cbn. intros [H|[H|[]]]; discriminate. }
  split; [exact Hover|]. split; [exact Hnokey|].
  exact (proj2 (proj2 (proj2 (frame_transitions idleInput
                                (Game.update (1 # 64) lastLifeGame))))
               Hover Hnokey).
Defined.

(** * Further properties of the code *)

(** ** Collision test *)

Lemma fmin_le_l (a b : Q) : fmin a b <= a.
Proof.
  unfold fmin. destruct (Qltb a b) eqn:H;
    [apply Qltb_lt in H | apply Qltb_ge in H]; lra.
Qed.

Lemma fmax_ge_r (a b : Q) : b <= fmax a b.
Proof.
  unfold fmax. destruct (Qltb a b) eqn:H;
    [apply Qltb_lt in H | apply Qltb_ge in H]; lra.
Qed.

Lemma fmin_positive_size (a w : Q) : 0 < w -> fmin a (a + w) = a.
Proof.
  intro Hw. unfold fmin.
  assert (H : Qltb a (a + w) = true) by (apply Qltb_lt; lra).
  rewrite H. reflexivity.
Qed.

Lemma fmax_positive_size (a w : Q) : 0 < w -> fmax a (a + w) = a + w.
Proof.
  intro Hw. unfold fmax.
  assert (H : Qltb a (a + w) = true) by (apply Qltb_lt; lra).
  rewrite H. reflexivity.
Qed.

Lemma fmax_lt (a b c : Q) : fmax a b < c <-> a < c /\ b < c.
Proof.
  unfold fmax. destruct (Qltb a b) eqn:H;
    [apply Qltb_lt in H | apply Qltb_ge in H]; split; intros; try split; lra.
Qed.

Lemma lt_fmin (a b c : Q) : c < fmin a b <-> c < a /\ c < b.
Proof.
  unfold fmin. destruct (Qltb a b) eqn:H;
    [apply Qltb_lt in H | apply Qltb_ge in H]; split; intros; try split; lra.
Qed.

(** X1.  For rectangles of positive width and height, [checkCollision] is the
    strict axis-aligned overlap test: each rectangle starts before the other
    one ends, on both axes; it is symmetric, and rectangles that only touch
    along an edge do not collide. *)
Theorem checkCollision_positive_sizes (r1 r2 : FloatRect) :
  0 < x (size r1) -> 0 < y (size r1) -> 0 < x (size r2) -> 0 < y (size r2) ->
  (checkCollision r1 r2 = true <->
   x (position r1) < x (position r2) + x (size r2)
   /\ x (position r2) < x (position r1) + x (size r1)
   /\ y (position r1) < y (position r2) + y (size r2)
   /\ y (position r2) < y (position r1) + y (size r1))
  /\ checkCollision r1 r2 = checkCollision r2 r1.
Proof.
  intros Hw1 Hh1 Hw2 Hh2.
  assert (Hchar : forall a b : FloatRect,
             0 < x (size a) -> 0 < y (size a) -> 0 < x (size b) -> 0 < y (size b) ->
             (checkCollision a b = true <->
              x (position a) < x (position b) + x (size b)
              /\ x (position b) < x (position a) + x (size a)
              /\ y (position a) < y (position b) + y (size b)
              /\ y (position b) < y (position a) + y (size a))).
  { intros a b Ha1 Ha2 Hb1 Hb2.
    unfold checkCollision, findIntersection_has_value. cbv zeta.
    rewrite !fmin_positive_size, !fmax_positive_size by assumption.
    rewrite andb_true_iff, !Qltb_lt, !fmax_lt, !lt_fmin.
    split; intros; repeat split; lra. }
  split; [apply Hchar; assumption|].
  destruct (checkCollision r1 r2) eqn:H12; destruct (checkCollision r2 r1) eqn:H21;
    try reflexivity.
  - apply (Hchar r1 r2) in H12; try assumption.
    rewrite <- H21. symmetry. apply Hchar; try assumption.
    repeat split; lra.
  - apply (Hchar r2 r1) in H21; try assumption.
    rewrite <- H12. apply Hchar; try assumption.
    repeat split; lra.
Qed.

Lemma checkCollision_positive_sizes_witness :
  let r1 := Rect (V2 0 0) (V2 40 60) in
  let r2 := Rect (V2 30 50) (V2 30 30) in
  (0 < x (size r1) /\ 0 < y (size r1) /\ 0 < x (size r2) /\ 0 < y (size r2))
  /\ checkCollision r1 r2 = checkCollision r2 r1.
Proof.
  cbv zeta. split; [repeat split|].
  refine (proj2 (checkCollision_positive_sizes
                   (Rect (V2 0 0) (V2 40 60)) (Rect (V2 30 50) (V2 30 30))
                   _ _ _ _)); reflexivity.
Defined.

(** Rectangles of non-negative size, one wholly beside, above or below
    the other (touching included), do not collide. *)
Lemma checkCollision_left_of (r1 r2 : FloatRect) :
  0 <= x (size r1) -> 0 <= x (size r2) ->
  x (position r1) + x (size r1) <= x (position r2) ->
  checkCollision r1 r2 = false.
Proof.
  intros H1 H2 Hleft. unfold checkCollision, findIntersection_has_value.
  cbv zeta. apply andb_false_iff. left. apply Qltb_ge.
  eapply Qle_trans; [apply fmin_le_l|].
  eapply Qle_trans; [|apply fmax_ge_r].
  unfold fmin, fmax.
  destruct (Qltb (x (position r1)) _) eqn:Ha;
    [apply Qltb_lt in Ha | apply Qltb_ge in Ha];
    (destruct (Qltb (x (position r2)) _) eqn:Hb;
     [apply Qltb_lt in Hb | apply Qltb_ge in Hb]); lra.
Qed.


Lemma checkCollision_below (r1 r2 : FloatRect) :
  0 <= y (size r1) -> 0 <= y (size r2) ->
  y (position r1) + y (size r1) <= y (position r2) ->
  checkCollision r1 r2 = false.
Proof.
  intros H1 H2 Hbelow. unfold checkCollision, findIntersection_has_value.
  cbv zeta. apply andb_false_iff. right. apply Qltb_ge.
  eapply Qle_trans; [apply fmin_le_l|].
  eapply Qle_trans; [|apply fmax_ge_r].
  unfold fmin, fmax.
  destruct (Qltb (y (position r1)) _) eqn:Ha;
    [apply Qltb_lt in Ha | apply Qltb_ge in Ha];
    (destruct (Qltb (y (position r2)) _) eqn:Hb;
     [apply Qltb_lt in Hb | apply Qltb_ge in Hb]); lra.
Qed.

(** ** Player: input *)

(** X2.  [Player::handleInput] never moves the sprite.  The horizontal velocity
    it sets depends on the keys alone: 200 when Right is held (also when
    Left is held too), otherwise -200 when Left is held, otherwise 0.  The
    player jumps exactly when Space is held and it is on the ground: the
    vertical velocity becomes -500 and [onGround] false; in the air, or
    without Space, vertical velocity and [onGround] are left alone. *)
Theorem handleInput_keys (keys : Keyboard) (p : Player.t) :
  let p' := Player.handleInput keys p in
  Player.sprite p' = Player.sprite p
  /\ x (Player.velocity p')
     = (if keys KeyRight then PLAYER_MOVE_SPEED
        else if keys KeyLeft then - PLAYER_MOVE_SPEED else 0)
  /\ (keys KeySpace = true -> Player.onGround p = true ->
      y (Player.velocity p') = PLAYER_JUMP_VELOCITY
      /\ Player.onGround p' = false)
  /\ (keys KeySpace = false \/ Player.onGround p = false ->
      y (Player.velocity p') = y (Player.velocity p)
      /\ Player.onGround p' = Player.onGround p).
Proof.
  unfold Player.handleInput. cbv zeta.
  destruct (keys KeyLeft), (keys KeyRight), (keys KeySpace), p as [s [vx vy] [|]];
    cbn; repeat split; try reflexivity;
    try discriminate; intros; try discriminate;
    repeat match goal with
           | H : _ \/ _ |- _ => destruct H; try discriminate
           end.
Qed.

Lemma handleInput_keys_witness :
  let p := Player.Make (Shape (V2 100 440) (V2 40 60)) (V2 0 0) true in
  y (Player.velocity (Player.handleInput (fun _ => true) p)) = PLAYER_JUMP_VELOCITY
  /\ Player.onGround (Player.handleInput (fun _ => true) p) = false.
Proof.
  cbv zeta.
  exact (proj1 (proj2 (proj2 (handleInput_keys (fun _ => true)
           (Player.Make (Shape (V2 100 440) (V2 40 60)) (V2 0 0) true))))
           eq_refl eq_refl).
Defined.

(** ** Player: the horizontal resolution loop *)

Lemma resolveHorizontal_size (p : Player.t) (platform : RectangleShape) :
  getSize (Player.sprite (Player.resolveHorizontal p platform))
  = getSize (Player.sprite p).
Proof.
  unfold Player.resolveHorizontal.
  destruct (checkCollision _ _); [|reflexivity].
  destruct (Qltb 0 _); [reflexivity|]. destruct (Qltb _ 0); reflexivity.
Qed.

Lemma resolveVertical_size (p : Player.t) (platform : RectangleShape) :
  getSize (Player.sprite (Player.resolveVertical p platform))
  = getSize (Player.sprite p).
Proof.
  unfold Player.resolveVertical.
  destruct (checkCollision _ _); [|reflexivity].
  destruct (Qltb 0 _); [reflexivity|]. destruct (Qltb _ 0); reflexivity.
Qed.

Lemma fold_resolveHorizontal_size (platforms : list RectangleShape) :
  forall p, getSize (Player.sprite (fold_left Player.resolveHorizontal platforms p))
            = getSize (Player.sprite p).
Proof.
  induction platforms as [|pl rest IH]; intro p; simpl; [reflexivity|].
  rewrite IH. apply resolveHorizontal_size.
Qed.

Lemma fold_resolveVertical_size (platforms : list RectangleShape) :
  forall p, getSize (Player.sprite (fold_left Player.resolveVertical platforms p))
            = getSize (Player.sprite p).
Proof.
  induction platforms as [|pl rest IH]; intro p; simpl; [reflexivity|].
  rewrite IH. apply resolveVertical_size.
Qed.

(** [Player::update] never changes the size of the sprite. *)
Lemma player_update_size
    (deltaTime : Q) (platforms : list RectangleShape) (p : Player.t) :
  getSize (Player.sprite (Player.update deltaTime platforms p))
  = getSize (Player.sprite p).
Proof.
  unfold Player.update. cbv zeta.
  set (q := Player.verticalStep _ _ _).
  destruct (clampRight_vertical (Player.clampLeft q)) as (_ & _ & _ & ->).
  destruct (clampLeft_vertical q) as (_ & _ & _ & ->).
  subst q. unfold Player.verticalStep.
  rewrite fold_resolveVertical_size. simpl.
  rewrite fold_resolveHorizontal_size. reflexivity.
Qed.



(** X4.  A player with no horizontal velocity goes through the horizontal loop
    unchanged, whatever platforms it overlaps. *)
Theorem fold_resolveHorizontal_at_rest (platforms : list RectangleShape)
    (p : Player.t) :
  x (Player.velocity p) = 0 ->
  fold_left Player.resolveHorizontal platforms p = p.
Proof.
  revert p. induction platforms as [|pl rest IH]; intros p Hvx; simpl.
  - reflexivity.
  - assert (Hstep : Player.resolveHorizontal p pl = p).
    { unfold Player.resolveHorizontal. rewrite Hvx.
      destruct (checkCollision _ _); [|reflexivity].
      destruct p as [s [vx vy] g]. simpl in Hvx. subst vx. reflexivity. }
    rewrite Hstep. apply IH, Hvx.
Qed.

Lemma fold_resolveHorizontal_at_rest_witness :
  let p := Player.Make (Shape (V2 300 380) (V2 40 60)) (V2 0 100) false in
  x (Player.velocity p) = 0
  /\ fold_left Player.resolveHorizontal Game.levelPlatforms p = p.
Proof.
  cbv zeta. split; [reflexivity|].
  apply (fold_resolveHorizontal_at_rest Game.levelPlatforms
           (Player.Make (Shape (V2 300 380) (V2 40 60)) (V2 0 100) false)).
  reflexivity.
Defined.

(** ** Player: the vertical step, other cases *)

Lemma fold_resolveVertical_rising (platforms : list RectangleShape) :
  forall p platform,
    y (Player.velocity p) < 0 ->
    find (overlaps p) platforms = Some platform ->
    fold_left Player.resolveVertical platforms p = bumpedOn platform p.
Proof.
  induction platforms as [|pl rest IH]; intros p platform Hvy Hfind; simpl in *.
  - discriminate.
  - unfold Player.resolveVertical at 2. unfold overlaps in Hfind at 1.
    destruct (checkCollision _ _) eqn:Hc.
    + injection Hfind as <-.
      assert (Hnot : Qltb 0 (y (Player.velocity p)) = false)
        by (apply Qltb_ge; lra).
      apply Qltb_lt in Hvy. rewrite Hnot, Hvy.
      apply fold_resolveVertical_at_rest. reflexivity.
    + apply IH; assumption.
Qed.

(** X5.  A rising player ([vy < 0] when the vertical step starts) whose moved
    bounds overlap some platform ends the step under the first such platform
    of the list: its top edge is that platform's bottom edge plus
    [COLLISION_EPSILON], its vertical velocity is 0, and it is not on the
    ground. *)
Theorem verticalStep_bumps_first_overlap
    (deltaTime : Q) (platforms : list RectangleShape) (p : Player.t)
    (platform : RectangleShape) :
  y (Player.velocity p) < 0 ->
  find (overlaps (Player.moveVertically deltaTime p)) platforms = Some platform ->
  let p' := Player.verticalStep deltaTime platforms p in
  topEdge (Player.sprite p') = bottomEdge platform + COLLISION_EPSILON
  /\ y (Player.velocity p') = 0
  /\ Player.onGround p' = false
  /\ x (getPosition (Player.sprite p'))
     = x (getPosition (Player.sprite (Player.moveVertically deltaTime p))).
Proof.
  intros Hvy Hfind p'. subst p'. unfold Player.verticalStep.
  rewrite (fold_resolveVertical_rising platforms _ platform);
    [|exact Hvy|exact Hfind].
  repeat split; reflexivity.
Qed.

Lemma verticalStep_bumps_first_overlap_witness :
  let p := Player.Make (Shape (V2 300 432) (V2 40 60)) (V2 0 (-256)) false in
  y (Player.velocity p) < 0
  /\ topEdge (Player.sprite (Player.verticalStep (1 # 64) Game.levelPlatforms p))
     = 400 + 30 + COLLISION_EPSILON.
Proof.
  cbv zeta. split; [reflexivity|].
  refine (proj1 (verticalStep_bumps_first_overlap (1 # 64) Game.levelPlatforms
                   (Player.Make (Shape (V2 300 432) (V2 40 60)) (V2 0 (-256)) false)
                   (Shape (V2 250 400) (V2 200 30)) _ _)); reflexivity.
Defined.

(** X6.  A player whose moved bounds overlap no platform of the list leaves the
    vertical step as the move left it: in the air, with its velocity. *)
Theorem verticalStep_free
    (deltaTime : Q) (platforms : list RectangleShape) (p : Player.t) :
  Forall (fun platform => overlaps (Player.moveVertically deltaTime p) platform
                          = false) platforms ->
  Player.verticalStep deltaTime platforms p = Player.moveVertically deltaTime p
  /\ Player.onGround (Player.verticalStep deltaTime platforms p) = false
  /\ Player.velocity (Player.verticalStep deltaTime platforms p) = Player.velocity p.
Proof.
  intro Hfree. unfold Player.verticalStep.
  assert (H : forall l q,
             Forall (fun platform => overlaps q platform = false) l ->
             fold_left Player.resolveVertical l q = q).
  { induction l as [|pl rest IH]; intros q Hq; simpl; [reflexivity|].
    inversion Hq as [|pl' rest' Hpl Hrest]; subst.
    unfold Player.resolveVertical at 2. unfold overlaps in Hpl. rewrite Hpl.
    apply IH, Hrest. }
  rewrite (H _ _ Hfree). repeat split; reflexivity.
Qed.

Lemma verticalStep_free_witness :
  let p := Player.Make (Shape (V2 100 200) (V2 40 60)) (V2 0 100) true in
  Forall (fun platform => overlaps (Player.moveVertically (1 # 64) p) platform
                          = false) Game.levelPlatforms
  /\ Player.onGround (Player.verticalStep (1 # 64) Game.levelPlatforms p) = false.
Proof.
  cbv zeta.
  assert (H : Forall (fun platform =>
                        overlaps (Player.moveVertically (1 # 64)
                                    (Player.Make (Shape (V2 100 200) (V2 40 60))
                                                 (V2 0 100) true)) platform
                        = false) Game.levelPlatforms).
  { repeat constructor. }
  split; [exact H|].
  exact (proj1 (proj2 (verticalStep_free (1 # 64) Game.levelPlatforms _ H))).
Defined.




(** X8.  After [Player::update] a player no wider than 800 units lies between
    x = 0 and x = 800, the width of the window, whatever its position and
    velocity before and whatever the platforms; its size is unchanged. *)
Theorem player_update_stays_in_window
    (deltaTime : Q) (platforms : list RectangleShape) (p : Player.t) :
  0 <= x (getSize (Player.sprite p)) <= 800 ->
  let p' := Player.update deltaTime platforms p in
  0 <= x (getPosition (Player.sprite p'))
  /\ x (getPosition (Player.sprite p')) + x (getSize (Player.sprite p)) <= 800
  /\ getSize (Player.sprite p') = getSize (Player.sprite p).
Proof.
  intros Hw p'. subst p'.
  destruct (update_x_within_window deltaTime platforms p Hw) as [H0 H800].
  rewrite player_update_size in H800.
  split; [exact H0|]. split; [exact H800|]. apply player_update_size.
Qed.

Lemma player_update_stays_in_window_witness :
  let p := Player.Make (Shape (V2 (-3) 100) (V2 40 60)) (V2 (-200) 0) false in
  0 <= x (getSize (Player.sprite p)) <= 800
  /\ 0 <= x (getPosition (Player.sprite (Player.update (1 # 64) Game.levelPlatforms p))).
Proof.
  cbv zeta.
  assert (H : 0 <= x (getSize (Player.sprite
                 (Player.Make (Shape (V2 (-3) 100) (V2 40 60)) (V2 (-200) 0) false)))
              <= 800) by (split; vm_compute; discriminate).
  split; [exact H|].
  exact (proj1 (player_update_stays_in_window (1 # 64) Game.levelPlatforms _ H)).
Defined.

(** ** Enemy: construction and speed *)

(** X9.  [Enemy::Enemy] orders the two bounds it is given: the left bound is
    never beyond the right bound, whichever way round they are passed, and
    passing them the other way round gives the same patrol range.  The enemy
    starts where it is put, moving right at [ENEMY_MOVE_SPEED]. *)
Theorem enemy_new_bounds (startX startY bound1 bound2 : Q) :
  let e := Enemy.new startX startY bound1 bound2 in
  let e' := Enemy.new startX startY bound2 bound1 in
  Enemy.leftBound e <= Enemy.rightBound e
  /\ Enemy.leftBound e <= bound1 <= Enemy.rightBound e
  /\ Enemy.leftBound e <= bound2 <= Enemy.rightBound e
  /\ Enemy.leftBound e' == Enemy.leftBound e
  /\ Enemy.rightBound e' == Enemy.rightBound e
  /\ getPosition (Enemy.sprite e) = V2 startX startY
  /\ Enemy.velocity e = V2 ENEMY_MOVE_SPEED 0.
Proof.
  cbv zeta. unfold Enemy.new, Enemy.std_min, Enemy.std_max. simpl.
  destruct (Qltb bound2 bound1) eqn:H21;
    [apply Qltb_lt in H21 | apply Qltb_ge in H21];
    (destruct (Qltb bound1 bound2) eqn:H12;
     [apply Qltb_lt in H12 | apply Qltb_ge in H12]);
    repeat split; try reflexivity; lra.
Qed.







(** ** Game: score and lives in one update *)

Lemma updateEnemies_score_lives (deltaTime : Q) (es : list Enemy.t) :
  forall g,
    exists stomps hits : nat,
      (stomps + hits <= length es)%nat
      /\ Game.score (fst (Game.updateEnemies deltaTime g es))
         = (Game.score g + 100 * Z.of_nat stomps)%Z
      /\ Game.lives (fst (Game.updateEnemies deltaTime g es))
         = (Game.lives g - Z.of_nat hits)%Z.
Proof.
  induction es as [|e rest IH]; intro g.
  - exists 0%nat, 0%nat. cbn. repeat split; lia.
  - rewrite updateEnemies_cons. cbn [fst length].
    destruct (IH (fst (Game.enemyStep deltaTime g e))) as (s & h & Hle & Hs & Hl).
    rewrite Hs, Hl. unfold Game.enemyStep, Game.interact.
    destruct (checkCollision _ _); [destruct (Game.isStomp _ _)|].
    + exists (S s), h. cbn [fst Game.score Game.lives Game.set_score
                            Game.set_player]. repeat split; lia.
    + exists s, (S h). destruct (_ <=? 0)%Z;
        cbn [fst Game.score Game.lives Game.set_lives Game.set_player
             Game.set_currentState]; repeat split; lia.
    + exists s, h. cbn [fst]. repeat split; lia.
Qed.

Lemma filter_pickedUp_length (p : Player.t) (cs : list Coin.t) :
  (length (filter (pickedUp p) cs)
   <= length (filter (fun c => negb (Coin.collected c)) cs))%nat.
Proof.
  induction cs as [|c rest IH]; simpl; [lia|].
  unfold pickedUp at 1.
  destruct (negb (Coin.collected c)); simpl; [|exact IH].
  destruct (checkCollision _ _); simpl; lia.
Qed.

Lemma updateEntities_score_lives (deltaTime : Q) (g : Game.t) :
  exists stomps hits picked : nat,
    (stomps + hits <= length (Game.enemies g))%nat
    /\ (picked <= length (filter (fun c => negb (Coin.collected c))
                                 (Game.coins g)))%nat
    /\ Game.score (Game.updateEntities deltaTime g)
       = (Game.score g + 100 * Z.of_nat stomps + 10 * Z.of_nat picked)%Z
    /\ Game.lives (Game.updateEntities deltaTime g)
       = (Game.lives g - Z.of_nat hits)%Z.
Proof.
  rewrite updateEntities_unfold. cbv zeta.
  set (r1 := Game.updateEnemies deltaTime g (Game.enemies g)).
  set (g1 := Game.set_enemies (snd r1) (fst r1)).
  destruct (updateEnemies_score_lives deltaTime (Game.enemies g) g)
    as (s & h & Hle & Hs & Hl). fold r1 in Hs, Hl.
  assert (Hcoins : Game.coins g1 = Game.coins g).
  { change (Game.coins (fst r1) = Game.coins g). subst r1.
    apply (updateEnemies_preserves deltaTime (fun h => Game.coins h = Game.coins g)).
    - intros h0 e Hh. rewrite <- Hh. apply enemyStep_fields.
    - reflexivity. }
  destruct (updateCoins_closed_form deltaTime (Game.coins g1) g1) as (_ & Hsc & _).
  assert (Hlv : Game.lives (fst (Game.updateCoins deltaTime g1 (Game.coins g1)))
                = Game.lives g1).
  { apply (updateCoins_preserves deltaTime (fun h => Game.lives h = Game.lives g1)).
    - intros h0 c Hh. rewrite <- Hh. apply coinStep_fields.
    - reflexivity. }
  exists s, h, (length (filter (pickedUp (Game.player g1)) (Game.coins g1))).
  split; [exact Hle|]. split.
  { rewrite Hcoins. apply filter_pickedUp_length. }
  split.
  - change (Game.score (fst (Game.updateCoins deltaTime g1 (Game.coins g1)))
            = (Game.score g + 100 * Z.of_nat s
               + 10 * Z.of_nat (length (filter (pickedUp (Game.player g1))
                                               (Game.coins g1))))%Z).
    rewrite Hsc. change (Game.score g1) with (Game.score (fst r1)). lia.
  - change (Game.lives (fst (Game.updateCoins deltaTime g1 (Game.coins g1)))
            = (Game.lives g - Z.of_nat h)%Z).
    rewrite Hlv. change (Game.lives g1) with (Game.lives (fst r1)). lia.
Qed.

(** X11.  In one [Game::update] the score never goes down and the lives never go
    up.  The score grows by 100 for each enemy stomped and by 10 for each
    coin picked up; the lives drop by one for a fall and by one for each
    enemy that hits the player; an enemy is stomped or hits at most once,
    and only coins not yet collected are picked up. *)
Theorem update_score_lives (deltaTime : Q) (g : Game.t) :
  exists fell stomps hits picked : nat,
    (fell <= 1)%nat
    /\ (stomps + hits <= length (Game.enemies g))%nat
    /\ (picked <= length (filter (fun c => negb (Coin.collected c))
                                 (Game.coins g)))%nat
    /\ Game.score (Game.update deltaTime g)
       = (Game.score g + 100 * Z.of_nat stomps + 10 * Z.of_nat picked)%Z
    /\ Game.lives (Game.update deltaTime g)
       = (Game.lives g - Z.of_nat fell - Z.of_nat hits)%Z
    /\ (Game.score g <= Game.score (Game.update deltaTime g))%Z
    /\ (Game.lives (Game.update deltaTime g) <= Game.lives g)%Z.
Proof.
  assert (Hentities : forall (fell : nat) (h : Game.t),
             (fell <= 1)%nat ->
             Game.enemies h = Game.enemies g -> Game.coins h = Game.coins g ->
             Game.score h = Game.score g ->
             Game.lives h = (Game.lives g - Z.of_nat fell)%Z ->
             exists fell stomps hits picked : nat,
               (fell <= 1)%nat
               /\ (stomps + hits <= length (Game.enemies g))%nat
               /\ (picked <= length (filter (fun c => negb (Coin.collected c))
                                            (Game.coins g)))%nat
               /\ Game.score (Game.updateEntities deltaTime h)
                  = (Game.score g + 100 * Z.of_nat stomps + 10 * Z.of_nat picked)%Z
               /\ Game.lives (Game.updateEntities deltaTime h)
                  = (Game.lives g - Z.of_nat fell - Z.of_nat hits)%Z
               /\ (Game.score g <= Game.score (Game.updateEntities deltaTime h))%Z
               /\ (Game.lives (Game.updateEntities deltaTime h) <= Game.lives g)%Z).
  { intros fell h Hfell He Hc Hs Hl.
    destruct (updateEntities_score_lives deltaTime h) as (s & k & n & H1 & H2 & H3 & H4).
    rewrite He in H1. rewrite Hc in H2. rewrite Hs in H3. rewrite Hl in H4.
    exists fell, s, k, n. repeat split; try assumption; lia. }
  unfold Game.update. cbv zeta.
  destruct (Qltb 700 _); [destruct (_ <=? 0)%Z|].
  - exists 1%nat, 0%nat, 0%nat, 0%nat.
    cbn [Game.score Game.lives Game.set_currentState Game.set_lives
         Game.set_player].
    repeat split; lia.
  - apply (Hentities 1%nat); try reflexivity; cbn; lia.
  - apply (Hentities 0%nat); try reflexivity; cbn; lia.
Qed.

(** ** Game: window, platforms and camera *)

Lemma enemyStep_window (deltaTime : Q) (g : Game.t) (e : Enemy.t) :
  Game.windowOpen (fst (Game.enemyStep deltaTime g e)) = Game.windowOpen g
  /\ Game.windowSize (fst (Game.enemyStep deltaTime g e)) = Game.windowSize g
  /\ Game.view (fst (Game.enemyStep deltaTime g e)) = Game.view g.
Proof.
  unfold Game.enemyStep, Game.interact.
  destruct (checkCollision _ _); [|repeat split; reflexivity].
  destruct (Game.isStomp _ _); [repeat split; reflexivity|].
  destruct (_ <=? 0)%Z; repeat split; reflexivity.
Qed.

Lemma coinStep_window (deltaTime : Q) (g : Game.t) (c : Coin.t) :
  Game.windowOpen (fst (Game.coinStep deltaTime g c)) = Game.windowOpen g
  /\ Game.windowSize (fst (Game.coinStep deltaTime g c)) = Game.windowSize g
  /\ Game.view (fst (Game.coinStep deltaTime g c)) = Game.view g
  /\ Game.platforms (fst (Game.coinStep deltaTime g c)) = Game.platforms g.
Proof.
  unfold Game.coinStep. destruct (_ && _); repeat split; reflexivity.
Qed.

(** The state in which [Game::update] reaches the camera step. *)
Lemma updateEntities_before_view (deltaTime : Q) (g : Game.t) :
  exists h,
    Game.updateEntities deltaTime g = Game.updateView h
    /\ Game.windowOpen h = Game.windowOpen g
    /\ Game.windowSize h = Game.windowSize g
    /\ Game.view h = Game.view g
    /\ Game.platforms h = Game.platforms g.
Proof.
  rewrite updateEntities_unfold. cbv zeta.
  set (r1 := Game.updateEnemies deltaTime g (Game.enemies g)).
  set (g1 := Game.set_enemies (snd r1) (fst r1)).
  set (r2 := Game.updateCoins deltaTime g1 (Game.coins g1)).
  exists (Game.set_coins (snd r2) (fst r2)). split; [reflexivity|].
  assert (H1 : Game.windowOpen (fst r1) = Game.windowOpen g
               /\ Game.windowSize (fst r1) = Game.windowSize g
               /\ Game.view (fst r1) = Game.view g
               /\ Game.platforms (fst r1) = Game.platforms g).
  { subst r1.
    apply (updateEnemies_preserves deltaTime
             (fun h => Game.windowOpen h = Game.windowOpen g
                       /\ Game.windowSize h = Game.windowSize g
                       /\ Game.view h = Game.view g
                       /\ Game.platforms h = Game.platforms g)).
    - intros h e (A & B & C & D).
      destruct (enemyStep_window deltaTime h e) as (-> & -> & ->).
      destruct (enemyStep_fields deltaTime h e) as (_ & -> & _).
      repeat split; assumption.
    - repeat split. }
  assert (H2 : Game.windowOpen (fst r2) = Game.windowOpen g
               /\ Game.windowSize (fst r2) = Game.windowSize g
               /\ Game.view (fst r2) = Game.view g
               /\ Game.platforms (fst r2) = Game.platforms g).
  { subst r2.
    apply (updateCoins_preserves deltaTime
             (fun h => Game.windowOpen h = Game.windowOpen g
                       /\ Game.windowSize h = Game.windowSize g
                       /\ Game.view h = Game.view g
                       /\ Game.platforms h = Game.platforms g)).
    - intros h c (A & B & C & D).
      destruct (coinStep_window deltaTime h c) as (-> & -> & -> & ->).
      repeat split; assumption.
    - exact H1. }
  exact H2.
Qed.

Lemma update_window (deltaTime : Q) (g : Game.t) :
  Game.windowOpen (Game.update deltaTime g) = Game.windowOpen g
  /\ Game.windowSize (Game.update deltaTime g) = Game.windowSize g
  /\ Game.platforms (Game.update deltaTime g) = Game.platforms g.
Proof.
  assert (Hentities : forall h,
             Game.windowOpen (Game.updateEntities deltaTime h) = Game.windowOpen h
             /\ Game.windowSize (Game.updateEntities deltaTime h) = Game.windowSize h
             /\ Game.platforms (Game.updateEntities deltaTime h) = Game.platforms h).
  { intro h. destruct (updateEntities_before_view deltaTime h)
      as (k & -> & A & B & _ & D).
    unfold Game.updateView. cbv zeta.
    cbn [Game.windowOpen Game.windowSize Game.platforms Game.set_view].
    repeat split; assumption. }
  unfold Game.update. cbv zeta.
  destruct (Qltb 700 _); [destruct (_ <=? 0)%Z|].
  - repeat split.
  - match goal with
    | |- context [Game.updateEntities _ ?h] => destruct (Hentities h) as (-> & -> & ->)
    end. repeat split.
  - match goal with
    | |- context [Game.updateEntities _ ?h] => destruct (Hentities h) as (-> & -> & ->)
    end. repeat split.
Qed.

Lemma updateView_clamped (g : Game.t) :
  inject_Z (fst (Game.windowSize g)) / 2
    <= 2000 - inject_Z (fst (Game.windowSize g)) / 2 ->
  viewClamped (Game.updateView g)
  /\ y (Game.center (Game.view (Game.updateView g)))
     = y (Game.center (Game.view g))
  /\ Game.viewSize (Game.view (Game.updateView g)) = Game.viewSize (Game.view g).
Proof.
  intro Hwide. unfold viewClamped, Game.updateView. cbv zeta.
  cbn [Game.windowSize Game.view Game.set_view Game.center Game.viewSize x y].
  destruct (Qltb _ (inject_Z (fst (Game.windowSize g)) / 2)) eqn:Hmin;
    cbn [Game.center Game.viewSize x y].
  - repeat split; try reflexivity; lra.
  - apply Qltb_ge in Hmin.
    destruct (Qltb (2000 - inject_Z (fst (Game.windowSize g)) / 2) _) eqn:Hmax;
      cbn [Game.center Game.viewSize x y].
    + repeat split; try reflexivity; lra.
    + apply Qltb_ge in Hmax. repeat split; try reflexivity; lra.
Qed.

(** X13.  For a window at most 2000 units wide, a camera within its bounds
    (half the window width from either end of the 2000 units of the level)
    is within them after [Game::update]; the update changes neither its
    vertical centre nor its size, nor the window. *)
Theorem update_view_clamped (deltaTime : Q) (g : Game.t) :
  inject_Z (fst (Game.windowSize g)) / 2
    <= 2000 - inject_Z (fst (Game.windowSize g)) / 2 ->
  viewClamped g ->
  viewClamped (Game.update deltaTime g)
  /\ y (Game.center (Game.view (Game.update deltaTime g)))
     = y (Game.center (Game.view g))
  /\ Game.viewSize (Game.view (Game.update deltaTime g))
     = Game.viewSize (Game.view g)
  /\ Game.windowSize (Game.update deltaTime g) = Game.windowSize g.
Proof.
  intros Hwide Hclamped.
  assert (Hentities : forall h,
             Game.windowSize h = Game.windowSize g -> Game.view h = Game.view g ->
             viewClamped (Game.updateEntities deltaTime h)
             /\ y (Game.center (Game.view (Game.updateEntities deltaTime h)))
                = y (Game.center (Game.view g))
             /\ Game.viewSize (Game.view (Game.updateEntities deltaTime h))
                = Game.viewSize (Game.view g)
             /\ Game.windowSize (Game.updateEntities deltaTime h)
                = Game.windowSize g).
  { intros h Hsize Hview.
    destruct (updateEntities_before_view deltaTime h) as (k & -> & _ & B & C & _).
    rewrite Hsize in B. rewrite Hview in C.
    destruct (updateView_clamped k) as (H1 & H2 & H3).
    { rewrite B. exact Hwide. }
    rewrite C in H2, H3. repeat split; try assumption; apply H1. }
  unfold Game.update. cbv zeta.
  destruct (Qltb 700 _); [destruct (_ <=? 0)%Z|].
  - split; [exact Hclamped|]. repeat split.
  - apply Hentities; reflexivity.
  - apply Hentities; reflexivity.
Qed.

Lemma update_view_clamped_witness :
  let g := Game.set_player
             (Player.Make (Shape (V2 50 440) (V2 40 60)) (V2 0 0) true) Game.new in
  inject_Z (fst (Game.windowSize g)) / 2
    <= 2000 - inject_Z (fst (Game.windowSize g)) / 2
  /\ viewClamped g
  /\ viewClamped (Game.update (1 # 64) g).
Proof.
  cbv zeta.
  set (g := Game.set_player
              (Player.Make (Shape (V2 50 440) (V2 40 60)) (V2 0 0) true) Game.new).
  assert (Hwide : inject_Z (fst (Game.windowSize g)) / 2
                  <= 2000 - inject_Z (fst (Game.windowSize g)) / 2)
    by (vm_compute; discriminate).
  assert (Hclamped : viewClamped g) by (split; vm_compute; discriminate).
  split; [exact Hwide|]. split; [exact Hclamped|].
  exact (proj1 (update_view_clamped (1 # 64) g Hwide Hclamped)).
Defined.

(** ** Game: the loop and the window *)

Lemma run_closed (inputs : list Game.FrameInput) (g : Game.t) :
  Game.windowOpen g = false -> Game.run inputs g = g.
Proof.
  intro Hclosed. destruct inputs; cbn [Game.run]; [reflexivity|].
  rewrite Hclosed. reflexivity.
Qed.

Lemma pollEvents_closed (queue : list Event) (g : Game.t) :
  Game.windowOpen g = false -> Game.pollEvents g queue = g.
Proof.
  intro Hclosed. destruct queue; cbn [Game.pollEvents]; [reflexivity|].
  rewrite Hclosed. reflexivity.
Qed.

Lemma handleEvent_windowOpen (g : Game.t) (event : Event) :
  Game.windowOpen (Game.handleEvent g event)
  = match event with Closed => false | _ => Game.windowOpen g end.
Proof.
  unfold Game.handleEvent.
  destruct event as [|w h|code|];
    cbn [Game.currentState Game.set_windowOpen Game.set_view Game.set_windowSize];
    destruct (Game.currentState g); try reflexivity.
  destruct (Key_eqb code KeyR); reflexivity.
Qed.

Lemma pollEvents_Closed (queue : list Event) :
  forall g, In Closed queue -> Game.windowOpen (Game.pollEvents g queue) = false.
Proof.
  induction queue as [|event rest IH]; intros g Hin; [destruct Hin|].
  cbn [Game.pollEvents]. destruct (Game.windowOpen g) eqn:Hopen; [|exact Hopen].
  destruct Hin as [->|Hin].
  - rewrite pollEvents_closed; apply handleEvent_windowOpen.
  - apply IH, Hin.
Qed.

(** X15.  A frame whose events include the closing of the window leaves the
    window closed, and [Game::run] stops after it: the frames that follow
    are not run. *)
Theorem frame_closes_window (i : Game.FrameInput) (rest : list Game.FrameInput)
    (g : Game.t) :
  Game.windowOpen g = true ->
  In Closed (Game.events i) ->
  Game.windowOpen (Game.frame i g) = false
  /\ Game.run (i :: rest) g = Game.frame i g.
Proof.
  intros Hopen Hin.
  assert (Hclosed : Game.windowOpen (Game.frame i g) = false).
  { unfold Game.frame. cbv zeta.
    assert (Hevents : Game.windowOpen
                        (Game.handleEvents (Game.events i) (Game.isKeyPressed i) g)
                      = false).
    { unfold Game.handleEvents. cbv zeta.
      destruct (Game.currentState (Game.pollEvents g (Game.events i)));
        cbn [Game.windowOpen Game.set_player]; apply pollEvents_Closed, Hin. }
    destruct (Game.currentState (Game.handleEvents _ _ g)).
    - destruct (update_window (Game.deltaTime i)
                  (Game.handleEvents (Game.events i) (Game.isKeyPressed i) g))
        as (-> & _). exact Hevents.
    - exact Hevents. }
  split; [exact Hclosed|].
  cbn [Game.run]. rewrite Hopen. apply run_closed, Hclosed.
Qed.

Lemma frame_closes_window_witness :
  let i := Game.MakeInput (1 # 64) [KeyPressed KeyLeft; Closed; KeyPressed KeyR]
                          (fun _ => false) in
  Game.windowOpen Game.new = true
  /\ In Closed (Game.events i)
  /\ Game.run [i; idleInput] Game.new = Game.frame i Game.new.
Proof.
  cbv zeta.
  assert (Hin : In Closed
                  (Game.events
                     (Game.MakeInput (1 # 64)
                        [KeyPressed KeyLeft; Closed; KeyPressed KeyR]
                        (fun _ => false)))) by (right; left; reflexivity).
  split; [reflexivity|]. split; [exact Hin|].
  exact (proj2 (frame_closes_window _ [idleInput] Game.new eq_refl Hin)).
Defined.

(** ** Game: what holds in every reachable state *)

Lemma run_invariant (I : Game.t -> Prop) :
  (forall i g, I g -> I (Game.frame i g)) ->
  forall inputs g, I g -> I (Game.run inputs g).
Proof.
  intro Hframe. induction inputs as [|i rest IH]; intros g Hg; cbn [Game.run].
  - exact Hg.
  - destruct (Game.windowOpen g); [|exact Hg]. apply IH, Hframe, Hg.
Qed.

Lemma pollEvents_invariant (I : Game.t -> Prop) :
  (forall g event, I g -> I (Game.handleEvent g event)) ->
  forall queue g, I g -> I (Game.pollEvents g queue).
Proof.
  intro Hevent. induction queue as [|event rest IH]; intros g Hg;
    cbn [Game.pollEvents].
  - exact Hg.
  - destruct (Game.windowOpen g); [|exact Hg]. apply IH, Hevent, Hg.
Qed.

(** What an event can do to the game proper: nothing, or a level reset. *)
Lemma handleEvent_cases (g : Game.t) (event : Event) :
  sameGameplay g (Game.handleEvent g event)
  \/ sameGameplay (Game.initLevel g) (Game.handleEvent g event).
Proof.
  assert (Hcases : event = KeyPressed KeyR \/ event <> KeyPressed KeyR).
  { destruct event as [| | [] |]; (left; reflexivity) || (right; discriminate). }
  destruct Hcases as [->|Hother].
  - unfold Game.handleEvent. cbn [Game.currentState].
    destruct (Game.currentState g); [left|right]; apply sameGameplay_refl.
  - left. apply handleEvent_sameGameplay. right. exact Hother.
Qed.

Lemma frame_platforms (i : Game.FrameInput) (g : Game.t) :
  Game.platforms g = Game.levelPlatforms ->
  Game.platforms (Game.frame i g) = Game.levelPlatforms.
Proof.
  intro Hg. unfold Game.frame. cbv zeta.
  assert (Hevents : Game.platforms
                      (Game.handleEvents (Game.events i) (Game.isKeyPressed i) g)
                    = Game.levelPlatforms).
  { unfold Game.handleEvents. cbv zeta.
    assert (Hpoll : Game.platforms (Game.pollEvents g (Game.events i))
                    = Game.levelPlatforms).
    { apply (pollEvents_invariant
               (fun h => Game.platforms h = Game.levelPlatforms)); [|exact Hg].
      intros h event Hh.
      destruct (handleEvent_cases h event) as [H|H];
        destruct H as (_ & _ & -> & _); [exact Hh | reflexivity]. }
    destruct (Game.currentState (Game.pollEvents g (Game.events i)));
      exact Hpoll. }
  destruct (Game.currentState (Game.handleEvents _ _ g)); [|exact Hevents].
  destruct (update_window (Game.deltaTime i)
              (Game.handleEvents (Game.events i) (Game.isKeyPressed i) g))
    as (_ & _ & ->).
  exact Hevents.
Qed.

(** X16.  The platforms never move: without a restart the platform list after any
    number of frames is the list before them, and a game that has the
    platforms of the level has them after any frames at all, restarts
    included. *)
Theorem run_platforms (inputs : list Game.FrameInput) (g : Game.t) :
  (Forall noRestart inputs ->
   Game.platforms (Game.run inputs g) = Game.platforms g)
  /\ (Game.platforms g = Game.levelPlatforms ->
      Game.platforms (Game.run inputs g) = Game.levelPlatforms).
Proof.
  split.
  - intro Hinputs.
    assert (H : Forall2 eq (Game.platforms g) (Game.platforms (Game.run inputs g))).
    { revert Hinputs. apply (run_pointwise Game.platforms eq).
      - reflexivity.
      - intros a b c -> ->. reflexivity.
      - intros deltaTime h.
        destruct (update_window deltaTime h) as (_ & _ & ->).
        apply Forall2_same. reflexivity.
      - intros queue keys h Hq.
        apply (handleEvents_sameGameplay queue keys h (or_intror Hq)). }
    revert H. generalize (Game.platforms (Game.run inputs g)).
    generalize (Game.platforms g).
    induction 1; [reflexivity | congruence].
  - revert g. apply (run_invariant (fun h => Game.platforms h = Game.levelPlatforms)).
    intros i h. apply frame_platforms.
Qed.

Lemma run_platforms_witness :
  let inputs := [Game.MakeInput (1 # 64) [KeyPressed KeyR] (fun _ => true);
                 idleInput] in
  Game.platforms lastLifeGame = Game.levelPlatforms
  /\ Game.platforms (Game.run inputs lastLifeGame) = Game.levelPlatforms.
Proof.
  cbv zeta. split; [reflexivity|].
  apply (proj2 (run_platforms _ lastLifeGame)). reflexivity.
Defined.

(** The player at the start of the coin loop, and what the loop does. *)
Lemma updateEntities_coins_map (deltaTime : Q) (g : Game.t) :
  exists pl,
    Game.coins (Game.updateEntities deltaTime g) = map (pickUp pl) (Game.coins g)
    /\ Game.player (Game.updateEntities deltaTime g) = pl
    /\ forall Pp : Player.t -> Prop,
         (forall p, Pp p -> Pp (Game.respawn p)) ->
         (forall p v, Pp p -> Pp (Player.set_vy v p)) ->
         Pp (Game.player g) -> Pp pl.
Proof.
  rewrite updateEntities_unfold. cbv zeta.
  set (r1 := Game.updateEnemies deltaTime g (Game.enemies g)).
  set (g1 := Game.set_enemies (snd r1) (fst r1)).
  assert (Hcoins : Game.coins g1 = Game.coins g).
  { change (Game.coins (fst r1) = Game.coins g). subst r1.
    apply (updateEnemies_preserves deltaTime (fun h => Game.coins h = Game.coins g)).
    - intros h0 e Hh. rewrite <- Hh. apply enemyStep_fields.
    - reflexivity. }
  destruct (updateCoins_closed_form deltaTime (Game.coins g1) g1) as (Hp & _ & Hl).
  exists (Game.player g1). split; [|split].
  - change (snd (Game.updateCoins deltaTime g1 (Game.coins g1))
            = map (pickUp (Game.player g1)) (Game.coins g)).
    rewrite Hl, Hcoins. reflexivity.
  - exact Hp.
  - intros Pp Hrespawn Hvy Hg.
    change (Pp (Game.player (fst r1))). subst r1.
    apply (updateEnemies_preserves deltaTime (fun h => Pp (Game.player h)));
      [|exact Hg].
    intros h e Hh. unfold Game.enemyStep, Game.interact.
    destruct (checkCollision _ _); [|exact Hh].
    destruct (Game.isStomp _ _).
    + apply Hvy, Hh.
    + cbn [Game.lives Game.set_lives Game.set_player Game.player].
      destruct (_ <=? 0)%Z; apply Hrespawn, Hh.
Qed.

Lemma handleInput_sprite (keys : Keyboard) (p : Player.t) :
  Player.sprite (Player.handleInput keys p) = Player.sprite p.
Proof.
  unfold Player.handleInput. cbv zeta.
  destruct (keys KeyLeft), (keys KeyRight), (keys KeySpace && _); reflexivity.
Qed.

Lemma pickUp_farUncollected (p : Player.t) (c : Coin.t) :
  getSize (Player.sprite p) = V2 40 60 ->
  x (getPosition (Player.sprite p)) + x (getSize (Player.sprite p)) <= 800 ->
  farUncollected c -> farUncollected (pickUp p c).
Proof.
  intros Hsize Hx Hc. unfold pickUp.
  destruct (pickedUp p c) eqn:Hpick; [|exact Hc].
  intros Hfar Hw. cbn in Hfar, Hw. exfalso.
  unfold pickedUp in Hpick. apply andb_true_iff in Hpick as [_ Hcol].
  rewrite checkCollision_left_of in Hcol; [discriminate| | |]; simpl.
  - rewrite Hsize. simpl. lra.
  - exact Hw.
  - lra.
Qed.

Lemma update_farUncollected (deltaTime : Q) (g : Game.t) :
  getSize (Player.sprite (Game.player g)) = V2 40 60 ->
  Forall farUncollected (Game.coins g) ->
  getSize (Player.sprite (Game.player (Game.update deltaTime g))) = V2 40 60
  /\ Forall farUncollected (Game.coins (Game.update deltaTime g)).
Proof.
  intros Hsize Hcoins.
  set (fallen := Player.update deltaTime (Game.platforms g) (Game.player g)).
  assert (Hfsize : getSize (Player.sprite fallen) = V2 40 60).
  { subst fallen. rewrite player_update_size. exact Hsize. }
  assert (Hfx : x (getPosition (Player.sprite fallen))
                + x (getSize (Player.sprite fallen)) <= 800).
  { subst fallen. apply update_x_within_window. rewrite Hsize. simpl. lra. }
  assert (Hentities : forall h,
             Game.coins h = Game.coins g ->
             getSize (Player.sprite (Game.player h)) = V2 40 60 ->
             x (getPosition (Player.sprite (Game.player h)))
             + x (getSize (Player.sprite (Game.player h))) <= 800 ->
             getSize (Player.sprite (Game.player (Game.updateEntities deltaTime h)))
             = V2 40 60
             /\ Forall farUncollected (Game.coins (Game.updateEntities deltaTime h))).
  { intros h Hc Hs Hx.
    destruct (updateEntities_coins_map deltaTime h) as (pl & -> & -> & Hpl).
    assert (Hin : getSize (Player.sprite pl) = V2 40 60
                  /\ x (getPosition (Player.sprite pl))
                     + x (getSize (Player.sprite pl)) <= 800).
    { apply (Hpl (fun p => getSize (Player.sprite p) = V2 40 60
                           /\ x (getPosition (Player.sprite p))
                              + x (getSize (Player.sprite p)) <= 800)).
      - intros p [Hp _]. simpl. rewrite Hp. split; [reflexivity|]. simpl. lra.
      - intros p v Hp. exact Hp.
      - split; assumption. }
    destruct Hin as [Hps Hpx]. split; [exact Hps|].
    rewrite Hc. apply Forall_forall. intros c' Hc'.
    apply in_map_iff in Hc' as (c & <- & Hin).
    apply pickUp_farUncollected; try assumption.
    revert c Hin. apply Forall_forall. exact Hcoins. }
  unfold Game.update. cbv zeta. fold fallen.
  cbn [Game.player Game.set_player Game.lives Game.set_lives].
  destruct (Qltb 700 _); [destruct (_ <=? 0)%Z|].
  - split; [exact Hfsize | exact Hcoins].
  - apply Hentities; cbn [Game.coins Game.player Game.set_player Game.set_lives].
    + reflexivity.
    + simpl. exact Hfsize.
    + simpl. rewrite Hfsize. simpl. lra.
  - apply Hentities; cbn [Game.coins Game.player Game.set_player];
      [reflexivity | exact Hfsize | exact Hfx].
Qed.

Lemma handleEvent_farUncollected (g : Game.t) (event : Event) :
  getSize (Player.sprite (Game.player g)) = V2 40 60
  /\ Forall farUncollected (Game.coins g) ->
  getSize (Player.sprite (Game.player (Game.handleEvent g event))) = V2 40 60
  /\ Forall farUncollected (Game.coins (Game.handleEvent g event)).
Proof.
  intros [Hsize Hcoins].
  destruct (handleEvent_cases g event) as [H|H];
    destruct H as (_ & -> & _ & _ & -> & _).
  - split; assumption.
  - split; [exact Hsize|]. repeat constructor.
Qed.

(** X17.  The player keeps the size it is constructed with, 40 by 60, through
    every frame, and no coin lying wholly at or beyond x = 800 is ever
    collected, whatever the inputs, restarts included: when the coin loop
    runs, the right edge of the player is at most at 800. *)
Theorem far_coins_never_collected (inputs : list Game.FrameInput) (g : Game.t) :
  getSize (Player.sprite (Game.player g)) = V2 40 60 ->
  Forall farUncollected (Game.coins g) ->
  getSize (Player.sprite (Game.player (Game.run inputs g))) = V2 40 60
  /\ Forall farUncollected (Game.coins (Game.run inputs g)).
Proof.
  intros Hsize Hcoins.
  apply (run_invariant
           (fun h => getSize (Player.sprite (Game.player h)) = V2 40 60
                     /\ Forall farUncollected (Game.coins h)));
    [|split; assumption].
  clear. intros i g Hg. unfold Game.frame. cbv zeta.
  assert (Hevents : getSize (Player.sprite (Game.player
                       (Game.handleEvents (Game.events i) (Game.isKeyPressed i) g)))
                    = V2 40 60
                    /\ Forall farUncollected
                         (Game.coins (Game.handleEvents (Game.events i)
                                        (Game.isKeyPressed i) g))).
  { unfold Game.handleEvents. cbv zeta.
    pose proof (pollEvents_invariant _ handleEvent_farUncollected
                  (Game.events i) g Hg) as [Hs Hc].
    destruct (Game.currentState (Game.pollEvents g (Game.events i)));
      cbn [Game.player Game.coins Game.set_player]; [|split; assumption].
    split; [|exact Hc].
    rewrite handleInput_sprite. exact Hs. }
  destruct (Game.currentState (Game.handleEvents _ _ g)); [|exact Hevents].
  destruct Hevents as [Hs Hc]. apply update_farUncollected; assumption.
Qed.

Lemma far_coins_never_collected_witness :
  let inputs := [Game.MakeInput (1 # 64) [] (fun _ => true);
                 Game.MakeInput (1 # 64) [KeyPressed KeyR] (fun _ => true)] in
  getSize (Player.sprite (Game.player Game.new)) = V2 40 60
  /\ Forall farUncollected (Game.coins Game.new)
  /\ Forall farUncollected (Game.coins (Game.run inputs Game.new)).
Proof.
  cbv zeta.
  assert (Hcoins : Forall farUncollected (Game.coins Game.new)).
  { repeat constructor. }
  split; [reflexivity|]. split; [exact Hcoins|].
  exact (proj2 (far_coins_never_collected _ Game.new eq_refl Hcoins)).
Defined.

(** ** Coin: the animation *)

Lemma coinAnimation_update_cases (textureWidth : Z) (spriteWidth elapsed : Q)
    (a : CoinAnimation.t) :
  CoinAnimation.update textureWidth spriteWidth elapsed a
  = (if Qltb spriteWidth (inject_Z textureWidth)
        && (1 <? CoinAnimation.numFrames a)%Z
        && Qleb (CoinAnimation.frameTime a) elapsed
     then (CoinAnimation.Make
             (Z.rem (CoinAnimation.currentFrame a + 1) (CoinAnimation.numFrames a))
             (CoinAnimation.frameTime a) (CoinAnimation.numFrames a)
             (Z.rem (CoinAnimation.currentFrame a + 1) (CoinAnimation.numFrames a)
              * CoinAnimation.static_cast_int spriteWidth), true)
     else (a, false)).
Proof.
  unfold CoinAnimation.update.
  destruct (Qltb _ _ && _); [destruct (Qleb _ _)|]; reflexivity.
Qed.

(** X18.  [Coin::update] keeps the frame index within the frames of the strip:
    an index in [[0, numFrames)] stays there.  The frame advances, by one
    and back to 0 after the last, exactly when the texture is wider than the
    sprite, there is more than one frame and the frame time has elapsed;
    the texture rectangle is then moved to the frame and the clock
    restarted.  Otherwise nothing changes. *)
Theorem coinAnimation_update_frame (textureWidth : Z) (spriteWidth elapsed : Q)
    (a : CoinAnimation.t) :
  (0 <= CoinAnimation.currentFrame a < CoinAnimation.numFrames a)%Z ->
  let r := CoinAnimation.update textureWidth spriteWidth elapsed a in
  (0 <= CoinAnimation.currentFrame (fst r) < CoinAnimation.numFrames (fst r))%Z
  /\ CoinAnimation.numFrames (fst r) = CoinAnimation.numFrames a
  /\ CoinAnimation.frameTime (fst r) = CoinAnimation.frameTime a
  /\ (snd r = true <->
      inject_Z textureWidth > spriteWidth
      /\ (CoinAnimation.numFrames a > 1)%Z
      /\ elapsed >= CoinAnimation.frameTime a)
  /\ (snd r = true ->
      CoinAnimation.currentFrame (fst r)
      = (if (CoinAnimation.currentFrame a + 1 =? CoinAnimation.numFrames a)%Z
         then 0 else CoinAnimation.currentFrame a + 1)%Z
      /\ CoinAnimation.textureRectX (fst r)
         = (CoinAnimation.currentFrame (fst r)
            * CoinAnimation.static_cast_int spriteWidth)%Z)
  /\ (snd r = false -> fst r = a).
Proof.
  intros Hrange r. subst r. rewrite coinAnimation_update_cases.
  destruct (Qltb spriteWidth (inject_Z textureWidth)) eqn:Hsheet;
    [apply Qltb_lt in Hsheet | apply Qltb_ge in Hsheet];
    (destruct (1 <? CoinAnimation.numFrames a)%Z eqn:Hmany;
     [apply Z.ltb_lt in Hmany | apply Z.ltb_ge in Hmany]);
    (destruct (Qleb (CoinAnimation.frameTime a) elapsed) eqn:Htime;
     [apply Qleb_le in Htime | apply Qleb_gt in Htime]);
    cbn [andb fst snd CoinAnimation.currentFrame CoinAnimation.numFrames
         CoinAnimation.frameTime CoinAnimation.textureRectX];
    try (repeat split; try reflexivity; try discriminate; try lia;
         intros (H1 & H2 & H3); exfalso; try lra; lia).
  assert (Hrem : Z.rem (CoinAnimation.currentFrame a + 1) (CoinAnimation.numFrames a)
                 = (if (CoinAnimation.currentFrame a + 1 =? CoinAnimation.numFrames a)%Z
                    then 0 else CoinAnimation.currentFrame a + 1)%Z).
  { rewrite Z.rem_mod_nonneg by lia.
    destruct (_ =? _)%Z eqn:Heq;
      [apply Z.eqb_eq in Heq | apply Z.eqb_neq in Heq].
    - rewrite Heq. apply Z.mod_same. lia.
    - apply Z.mod_small. lia. }
  rewrite Hrem.
  repeat split; try reflexivity; try lia; try assumption;
    try (destruct (_ =? _)%Z eqn:Heq;
         [apply Z.eqb_eq in Heq | apply Z.eqb_neq in Heq]; lia).
Qed.

Lemma coinAnimation_update_frame_witness :
  (0 <= CoinAnimation.currentFrame CoinAnimation.new
   < CoinAnimation.numFrames CoinAnimation.new)%Z
  /\ CoinAnimation.currentFrame
       (fst (CoinAnimation.update 120 30 (1 # 8) CoinAnimation.new)) = 1%Z.
Proof.
  assert (H : (0 <= CoinAnimation.currentFrame CoinAnimation.new
               < CoinAnimation.numFrames CoinAnimation.new)%Z)
    by (split; vm_compute; congruence).
  split; [exact H|].
  exact (proj1 (proj1 (proj2 (proj2 (proj2 (proj2
           (coinAnimation_update_frame 120 30 (1 # 8) CoinAnimation.new H)))))
           eq_refl)).
Defined.

Lemma coinAnimation_ticks (textureWidth : Z) (spriteWidth : Q) (n : nat) :
  forall a,
    Qltb spriteWidth (inject_Z textureWidth) = true ->
    (1 < CoinAnimation.numFrames a)%Z ->
    (0 <= CoinAnimation.currentFrame a < CoinAnimation.numFrames a)%Z ->
    CoinAnimation.currentFrame (CoinAnimation.ticks textureWidth spriteWidth n a)
    = ((CoinAnimation.currentFrame a + Z.of_nat n)
       mod CoinAnimation.numFrames a)%Z
    /\ CoinAnimation.numFrames (CoinAnimation.ticks textureWidth spriteWidth n a)
       = CoinAnimation.numFrames a.
Proof.
  induction n as [|n IH]; intros a Hsheet Hmany Hrange.
  - cbn [CoinAnimation.ticks]. split; [|reflexivity].
    rewrite Z.add_0_r. symmetry. apply Z.mod_small. exact Hrange.
  - cbn [CoinAnimation.ticks]. rewrite coinAnimation_update_cases.
    assert (Hm : (1 <? CoinAnimation.numFrames a)%Z = true)
      by (apply Z.ltb_lt; exact Hmany).
    assert (Ht : Qleb (CoinAnimation.frameTime a) (CoinAnimation.frameTime a) = true)
      by (apply Qleb_le; apply Qle_refl).
    rewrite Hsheet, Hm, Ht. cbn [andb fst].
    set (b := CoinAnimation.Make _ _ _ _).
    assert (Hb : CoinAnimation.currentFrame b
                 = ((CoinAnimation.currentFrame a + 1)
                    mod CoinAnimation.numFrames a)%Z).
    { subst b. cbn [CoinAnimation.currentFrame]. apply Z.rem_mod_nonneg; lia. }
    destruct (IH b Hsheet) as [Hf Hn].
    + exact Hmany.
    + rewrite Hb. apply Z.mod_pos_bound. change (CoinAnimation.numFrames b)
        with (CoinAnimation.numFrames a). lia.
    + rewrite Hf, Hn, Hb.
      change (CoinAnimation.numFrames b) with (CoinAnimation.numFrames a).
      split; [|reflexivity].
      rewrite Z.add_mod_idemp_l by lia. f_equal. lia.
Qed.

(** X19.  With a sprite sheet, the animation is a cycle: after as many frame
    changes as there are frames, the coin shows the frame it started
    from. *)
Theorem coinAnimation_cycle (textureWidth : Z) (spriteWidth : Q)
    (a : CoinAnimation.t) :
  spriteWidth < inject_Z textureWidth ->
  (1 < CoinAnimation.numFrames a)%Z ->
  (0 <= CoinAnimation.currentFrame a < CoinAnimation.numFrames a)%Z ->
  CoinAnimation.currentFrame
    (CoinAnimation.ticks textureWidth spriteWidth
       (Z.to_nat (CoinAnimation.numFrames a)) a)
  = CoinAnimation.currentFrame a.
Proof.
  intros Hsheet Hmany Hrange. apply Qltb_lt in Hsheet.
  destruct (coinAnimation_ticks textureWidth spriteWidth
              (Z.to_nat (CoinAnimation.numFrames a)) a Hsheet Hmany Hrange)
    as [-> _].
  rewrite Z2Nat.id by lia.
  rewrite <- (Z.mul_1_l (CoinAnimation.numFrames a)) at 1.
  rewrite Z.mod_add by lia. apply Z.mod_small. exact Hrange.
Qed.

Lemma coinAnimation_cycle_witness :
  30 < inject_Z 120
  /\ CoinAnimation.currentFrame (CoinAnimation.ticks 120 30 4 CoinAnimation.new)
     = CoinAnimation.currentFrame CoinAnimation.new.
Proof.
  split; [reflexivity|].
  apply (coinAnimation_cycle 120 30 CoinAnimation.new).
  - reflexivity.
  - reflexivity.
  - split; vm_compute; congruence.
Defined.

(** ** Game: coins, over the whole update and over time *)

Lemma updateEntities_score_coins (deltaTime : Q) (g : Game.t) :
  exists stomps : nat,
    (stomps <= length (Game.enemies g))%nat
    /\ Game.score (Game.updateEntities deltaTime g)
       = (Game.score g + 100 * Z.of_nat stomps
          + 10 * Z.of_nat
                   (length (filter
                              (pickedUp (Game.player
                                           (Game.updateEntities deltaTime g)))
                              (Game.coins g))))%Z.
Proof.
  rewrite updateEntities_unfold. cbv zeta.
  set (r1 := Game.updateEnemies deltaTime g (Game.enemies g)).
  set (g1 := Game.set_enemies (snd r1) (fst r1)).
  destruct (updateEnemies_score_lives deltaTime (Game.enemies g) g)
    as (s & h & Hle & Hs & _). fold r1 in Hs.
  assert (Hcoins : Game.coins g1 = Game.coins g).
  { change (Game.coins (fst r1) = Game.coins g). subst r1.
    apply (updateEnemies_preserves deltaTime (fun h => Game.coins h = Game.coins g)).
    - intros h0 e Hh. rewrite <- Hh. apply enemyStep_fields.
    - reflexivity. }
  destruct (updateCoins_closed_form deltaTime (Game.coins g1) g1) as (Hp & Hsc & _).
  exists s. split; [lia|].
  change (Game.score (fst (Game.updateCoins deltaTime g1 (Game.coins g1)))
          = (Game.score g + 100 * Z.of_nat s
             + 10 * Z.of_nat
                      (length (filter
                                 (pickedUp
                                    (Game.player
                                       (fst (Game.updateCoins deltaTime g1
                                               (Game.coins g1)))))
                                 (Game.coins g))))%Z).
  rewrite Hp, Hsc, Hcoins. change (Game.score g1) with (Game.score (fst r1)). lia.
Qed.

Lemma frame_staysCollected (i : Game.FrameInput) (g : Game.t) :
  Game.currentState g = Playing \/ noRestart i ->
  Forall2 staysCollected (Game.coins g) (Game.coins (Game.frame i g)).
Proof.
  intro H. unfold Game.frame. cbv zeta.
  destruct (handleEvents_sameGameplay (Game.events i) (Game.isKeyPressed i) g H)
    as (_ & _ & _ & Hcoins & _).
  rewrite <- Hcoins.
  destruct (Game.currentState (Game.handleEvents _ _ g)).
  - apply update_staysCollected.
  - apply Forall2_same. intro a. split; auto.
Qed.

Lemma run_noReset_staysCollected (inputs : list Game.FrameInput) :
  forall g, noReset inputs g ->
            Forall2 staysCollected (Game.coins g) (Game.coins (Game.run inputs g)).
Proof.
  assert (Hrefl : forall l, Forall2 staysCollected l l).
  { apply Forall2_same. intro a. split; auto. }
  induction inputs as [|i rest IH]; intros g Hg; cbn [Game.run noReset] in *.
  - apply Hrefl.
  - destruct (Game.windowOpen g); [|apply Hrefl].
    destruct (Hg eq_refl) as [Hi Hrest].
    apply (Forall2_trans staysCollected) with (l2 := Game.coins (Game.frame i g)).
    + intros a b c [Hab1 Hab2] [Hbc1 Hbc2]. split; [congruence | auto].
    + apply frame_staysCollected, Hi.
    + apply IH, Hrest.
Qed.

(** C6, as amended.  In the coin loop of [Game::update], a coin not yet
    collected that the player's bounds overlap becomes collected and adds
    exactly 10 to the score; a collected coin is left as it is and adds
    nothing.  Over a whole [Game::update]: if it returns at the fall test,
    coins and score are untouched; otherwise each coin is picked up exactly
    when it is uncollected and overlaps the bounds the player has at the end
    of that update (after the physics step, any respawn and the enemy loop),
    and the score grows by 10 for each coin picked up, besides 100 for each
    stomp.  Through every [Game::update], and through any frames that do not
    reset the level, the coins stay in place and a collected coin stays
    collected. *)
Theorem coin_collected_once
    (deltaTime : Q) (g : Game.t) (c : Coin.t) (cs : list Coin.t)
    (inputs : list Game.FrameInput) :
  (Coin.collected c = false ->
   checkCollision (getGlobalBounds (Player.sprite (Game.player g)))
                  (getGlobalBounds (Coin.sprite c)) = true ->
   Coin.collected (snd (Game.coinStep deltaTime g c)) = true
   /\ Game.score (fst (Game.coinStep deltaTime g c)) = (Game.score g + 10)%Z)
  /\ (Coin.collected c = true -> Game.coinStep deltaTime g c = (g, c))
  /\ (Game.score (fst (Game.updateCoins deltaTime g cs))
      = (Game.score g
         + 10 * Z.of_nat (length (filter (pickedUp (Game.player g)) cs)))%Z
      /\ snd (Game.updateCoins deltaTime g cs) = map (pickUp (Game.player g)) cs)
  /\ (returnsEarly deltaTime g = true ->
      Game.coins (Game.update deltaTime g) = Game.coins g
      /\ Game.score (Game.update deltaTime g) = Game.score g)
  /\ (returnsEarly deltaTime g = false ->
      Game.coins (Game.update deltaTime g)
      = map (pickUp (Game.player (Game.update deltaTime g))) (Game.coins g)
      /\ exists stomps : nat,
           (stomps <= length (Game.enemies g))%nat
           /\ Game.score (Game.update deltaTime g)
              = (Game.score g + 100 * Z.of_nat stomps
                 + 10 * Z.of_nat
                          (length (filter
                                     (pickedUp (Game.player
                                                  (Game.update deltaTime g)))
                                     (Game.coins g))))%Z)
  /\ Forall2 staysCollected (Game.coins g) (Game.coins (Game.update deltaTime g))
  /\ (noReset inputs g ->
      Forall2 staysCollected (Game.coins g) (Game.coins (Game.run inputs g))).
Proof.
  split; [|split; [|split; [|split; [|split; [|split]]]]].
  - intros Hc Hoverlap. rewrite coinStep_eq. unfold pickedUp.
    rewrite Hc, Hoverlap. split; reflexivity.
  - intro Hc. rewrite coinStep_eq. unfold pickedUp. rewrite Hc. reflexivity.
  - destruct (updateCoins_closed_form deltaTime cs g) as (_ & Hs & Hl).
    split; assumption.
  - unfold returnsEarly, Game.update. cbv zeta.
    cbn [Game.player Game.set_player Game.lives Game.set_lives].
    intro Hearly. apply andb_true_iff in Hearly as [-> ->].
    split; reflexivity.
  - assert (Hentities : forall h,
               Game.coins h = Game.coins g -> Game.enemies h = Game.enemies g ->
               Game.score h = Game.score g ->
               Game.coins (Game.updateEntities deltaTime h)
               = map (pickUp (Game.player (Game.updateEntities deltaTime h)))
                     (Game.coins g)
               /\ exists stomps : nat,
                    (stomps <= length (Game.enemies g))%nat
                    /\ Game.score (Game.updateEntities deltaTime h)
                       = (Game.score g + 100 * Z.of_nat stomps
                          + 10 * Z.of_nat
                                   (length (filter
                                              (pickedUp
                                                 (Game.player
                                                    (Game.updateEntities deltaTime h)))
                                              (Game.coins g))))%Z).
    { intros h Hc He Hs. split.
      - destruct (updateEntities_coins_map deltaTime h) as (pl & Hmap & Hpl & _).
        rewrite Hpl, Hmap, Hc. reflexivity.
      - destruct (updateEntities_score_coins deltaTime h) as (s & Hle & Hscore).
        exists s. rewrite <- He, <- Hc, <- Hs. split; assumption. }
    unfold returnsEarly, Game.update. cbv zeta.
    cbn [Game.player Game.set_player Game.lives Game.set_lives].
    intro Hearly.
    destruct (Qltb 700 _); [destruct (_ <=? 0)%Z|].
    + discriminate.
    + apply Hentities; reflexivity.
    + apply Hentities; reflexivity.
  - apply update_staysCollected.
  - apply run_noReset_staysCollected.
Qed.

Lemma coin_collected_once_witness :
  returnsEarly (1 # 64) coinGame = false
  /\ Game.coins (Game.update (1 # 64) coinGame)
     = map (pickUp (Game.player (Game.update (1 # 64) coinGame)))
           (Game.coins coinGame)
  /\ exists c c',
       nth_error (Game.coins coinGame) 0 = Some c
       /\ nth_error (Game.coins (Game.update (1 # 64) coinGame)) 0 = Some c'
       /\ Coin.collected c = false
       /\ Coin.collected c' = true
       /\ Game.score (Game.update (1 # 64) coinGame)
          = (Game.score coinGame + 10)%Z.
Proof.
  assert (Hearly : returnsEarly (1 # 64) coinGame = false)
    by (vm_compute; reflexivity).
  split; [exact Hearly|]. split.
  - exact (proj1 (proj1 (proj2 (proj2 (proj2 (proj2
             (coin_collected_once (1 # 64) coinGame (Coin.new 270 360) [] [])))))
             Hearly)).
  - eexists. eexists.
    split; [vm_compute; reflexivity|]. split; [vm_compute; reflexivity|].
    split; [reflexivity|]. split; [reflexivity|]. vm_compute. reflexivity.
Defined.

(** C6, as stated, fails: the player of [coinAndEnemyGame] overlaps the
    second coin, uncollected, before the update and after its physics step;
    but the second enemy walks into the player, which costs a life and sends
    the player back to the start before the coin loop runs, and the update
    ends with the coin uncollected and the score unchanged. *)
Lemma update_respawn_misses_coin_counterexample :
  let g := coinAndEnemyGame in
  let g' := Game.update (1 # 64) g in
  exists c c',
    nth_error (Game.coins g) 1 = Some c
    /\ nth_error (Game.coins g') 1 = Some c'
    /\ Coin.collected c = false
    /\ checkCollision (getGlobalBounds (Player.sprite (Game.player g)))
                      (getGlobalBounds (Coin.sprite c)) = true
    /\ checkCollision
         (getGlobalBounds
            (Player.sprite
               (Player.update (1 # 64) (Game.platforms g) (Game.player g))))
         (getGlobalBounds (Coin.sprite c)) = true
    /\ returnsEarly (1 # 64) g = false
    /\ Coin.collected c' = false
    /\ Game.score g' = Game.score g
    /\ Game.lives g' = (Game.lives g - 1)%Z.
Proof.
  cbv zeta. eexists. eexists.
  split; [vm_compute; reflexivity|]. split; [vm_compute; reflexivity|].
  split; [vm_compute; reflexivity|]. split; [vm_compute; reflexivity|].
  split; [vm_compute; reflexivity|]. split; [vm_compute; reflexivity|].
  split; [vm_compute; reflexivity|]. split; vm_compute; reflexivity.
Qed.
